(** * Gemini Style Remix: request construction and response interpretation

    A shallow embedding of [services/geminiService.ts] (the two entry points
    [generateStylizedImage] and [removeBackground]) and of the history update
    performed by [handleGenerate] in [App.tsx], followed by the properties
    the specification states about them. *)

From Stdlib Require Import ZArith NArith List Bool Ascii String Lia.
From Stdlib Require Import DecimalString.
Import ListNotations.

(** ** JavaScript strings

    A JavaScript string is a finite sequence of UTF-16 code units.  The
    string primitives used by the service ([includes], [split], [trim],
    template literals, [join]) are defined on that representation. *)

Module JS.

Definition code_unit := N.
Definition jsstring := list code_unit.

(** Source literals are plain ASCII; [lit] reads one as a [jsstring]. *)
Definition lit (s : string) : jsstring :=
  map N_of_ascii (list_ascii_of_string s).
Arguments lit s%_string.

(** Truthiness of a string value: every string but the empty one. *)
Definition truthy (s : jsstring) : bool :=
  match s with
  | [] => false
  | _ :: _ => true
  end.

(** Truthiness of a value that is either [undefined] or a string. *)
Definition truthy_opt (o : option jsstring) : bool :=
  match o with
  | None => false
  | Some s => truthy s
  end.

(** [a || b] where [a] is a possibly undefined string. *)
Definition or_else (o : option jsstring) (dflt : jsstring) : jsstring :=
  match o with
  | Some (c :: s) => c :: s
  | Some [] | None => dflt
  end.

(** String conversion inside a template literal or a [+]. *)
Definition to_string_opt (o : option jsstring) : jsstring :=
  match o with
  | Some s => s
  | None => lit "undefined"
  end.

Fixpoint starts_with (sub s : jsstring) : bool :=
  match sub, s with
  | [], _ => true
  | _ :: _, [] => false
  | a :: sub', b :: s' => N.eqb a b && starts_with sub' s'
  end.

(** [s.includes(sub)] *)
Fixpoint includes (s sub : jsstring) : bool :=
  match s with
  | [] => starts_with sub []
  | _ :: s' => starts_with sub s || includes s' sub
  end.

(** [s.split(sep)] for a non-empty separator.  [skip] counts the code units
    of a matched separator that are still to be passed over, [cur] holds the
    current piece in reverse. *)
Fixpoint split_from (sep s : jsstring) (skip : nat) (cur : jsstring)
  : list jsstring :=
  match s with
  | [] => [rev cur]
  | c :: s' =>
      match skip with
      | S k => split_from sep s' k cur
      | O =>
          if starts_with sep s
          then rev cur :: split_from sep s' (pred (List.length sep)) []
          else split_from sep s' 0 (c :: cur)
      end
  end.

Definition split (s sep : jsstring) : list jsstring :=
  split_from sep s 0 [].

(** White space and line terminators, the code units [trim] removes. *)
Definition is_white_space (c : code_unit) : bool :=
  ((9 <=? c) && (c <=? 13) || (c =? 32) || (c =? 160) || (c =? 5760)
   || (8192 <=? c) && (c <=? 8202)
   || (c =? 8232) || (c =? 8233) || (c =? 8239) || (c =? 8287)
   || (c =? 12288) || (c =? 65279))%N.

Fixpoint trim_start (s : jsstring) : jsstring :=
  match s with
  | [] => []
  | c :: s' => if is_white_space c then trim_start s' else s
  end.

Definition trim (s : jsstring) : jsstring :=
  rev (trim_start (rev (trim_start s))).

(** The array index [a[i]]: [undefined] out of range. *)
Definition index {A} (a : list A) (i : nat) : option A := nth_error a i.

(** [parts.join(sep)] *)
Fixpoint join (sep : jsstring) (l : list jsstring) : jsstring :=
  match l with
  | [] => []
  | [x] => x
  | x :: rest => x ++ sep ++ join sep rest
  end.

(** String conversion of an integral number (decimal digits, with a sign
    for negative values); this is what a template literal yields for the
    integers the slider and the clock produce. *)
Definition number_to_string (z : Z) : jsstring :=
  lit (NilEmpty.string_of_int (Z.to_int z)).

End JS.

Import JS.

(** ** Data model ([types.ts] and the remote service's messages) *)

Inductive Quality := standard | high.

Record GenerationResult := {
  imageUrl : option jsstring;
  text : option jsstring
}.

Record GeneratedImage := {
  id : jsstring;
  gi_imageUrl : jsstring;
  timestamp : Z;
  promptUsed : jsstring
}.

(** The argument of [ai.models.generateContent]: the model identifier, the
    two content parts (instruction text, inline image) and the configuration
    block, whose only possible entry is [imageConfig.imageSize]. *)
Record Request := {
  req_model : jsstring;
  req_text : jsstring;
  req_data : option jsstring;
  req_mimeType : jsstring;
  req_imageSize : option jsstring
}.

Record InlineData := {
  data : option jsstring;
  mimeType : option jsstring
}.

Record Part := {
  inlineData : option InlineData;
  part_text : option jsstring
}.

Record Content := {
  parts : option (list Part)
}.

Record Candidate := {
  content : option Content
}.

Record Response := {
  candidates : option (list Candidate)
}.

(** What the awaited remote call does: it resolves with a response or
    rejects with an error object, of which only [message] is read. *)
Inductive ServiceOutcome :=
| Resolved (r : Response)
| Rejected (message : option jsstring).

Definition Service := Request -> ServiceOutcome.

(** How a call of an entry point ends. *)
Inductive Completion :=
| Returned (r : GenerationResult)
| Threw (message : jsstring).

(** An entry point's run: the requests handed to the remote service, in
    order, and how the call ended. *)
Record Run := {
  sent : list Request;
  outcome : Completion
}.

(** Inside a [try] block: normal completion with a value, or an error
    object on its way to the handler. *)
Inductive Attempt :=
| Normal (r : GenerationResult)
| Raised (message : option jsstring).


(** ** The service ([services/geminiService.ts]) *)

Module GeminiService.

Definition newline2 : jsstring := [10%N; 10%N].

Definition missingKeyMessage : jsstring :=
  lit "API Key is missing. Please configure it in your .env file.".
Definition entityNotFoundMarker : jsstring :=
  lit "Requested entity was not found".
Definition entityNotFoundMessage : jsstring :=
  lit "Requested entity was not found.".
Definition invalidApiKeyMessage : jsstring :=
  lit "Invalid or missing API Key. Please check your .env file.".
Definition invalidRequestMessage : jsstring :=
  lit "The request was invalid. The image might be too large or the prompt flagged.".
Definition overloadedMessage : jsstring :=
  lit "The service is currently overloaded. Please try again in a moment.".
Definition safetyMessage : jsstring :=
  lit "Generation blocked by safety filters. Please adjust your prompt or image.".
Definition unknownErrorMessage : jsstring :=
  lit "An unknown error occurred.".
Definition emptyResponseMessage : jsstring :=
  lit "The model returned an empty response. Please try a different prompt or image.".
Definition modelDeclinedPrefix : jsstring :=
  lit "Model declined to generate image: ".

(** Remove the data URL prefix if present. *)
Definition cleanBase64 (base64Data : jsstring) : option jsstring :=
  if includes base64Data (lit "base64,")
  then index (split base64Data (lit "base64,")) 1
  else Some base64Data.

Definition ignoreSentence : jsstring :=
  lit "Ignore the input image structure entirely. Composition should be determined solely by the prompt.".
Definition looseSentence : jsstring :=
  lit "Use the input image as a loose reference. You may significantly alter the pose and structure.".
Definition maintainSentence : jsstring :=
  lit "Maintain the general structure and main subject placement of the input image, but adapt details to the style.".
Definition strictSentence : jsstring :=
  lit "Strictly adhere to the exact structure, pose, and composition of the input image. Only change the artistic rendering.".

(** Construct guidance based on influence level. *)
Definition guidance (influence : Z) : jsstring :=
  if (influence =? 0)%Z then ignoreSentence
  else if (influence <? 30)%Z then looseSentence
  else if (influence <? 70)%Z then maintainSentence
  else strictSentence.

Definition aestheticBase : jsstring :=
  lit "Aesthetic: Vintage, sepia-toned, or aged photograph look with high detail and film grain.".

Definition subjectSection (characterDescription : jsstring) : jsstring :=
  lit "Subject Description: " ++ characterDescription ++ lit ".".
Definition sceneSection (sceneActionDescription : jsstring) : jsstring :=
  lit "Scene & Action: " ++ sceneActionDescription ++ lit ".".
Definition styleSection (prompt : jsstring) : jsstring :=
  lit "Style & Atmosphere: " ++ prompt ++ lit ". " ++ aestheticBase.
Definition instructionSection (influence : Z) : jsstring :=
  lit "IMPORTANT INSTRUCTION: " ++ guidance influence
    ++ lit " (Structural Adherence: " ++ number_to_string influence ++ lit "%)".

(** The array [promptParts] after its pushes. *)
Definition promptParts (prompt characterDescription sceneActionDescription
                        : jsstring) : list jsstring :=
  let promptParts := [] in
  let promptParts :=
    if truthy (trim characterDescription)
    then promptParts ++ [subjectSection characterDescription]
    else promptParts in
  let promptParts :=
    if truthy (trim sceneActionDescription)
    then promptParts ++ [sceneSection sceneActionDescription]
    else promptParts in
  promptParts ++ [styleSection prompt].

Definition finalPrompt (prompt : jsstring) (influence : Z)
    (characterDescription sceneActionDescription : jsstring) : jsstring :=
  let finalPrompt :=
    join newline2 (promptParts prompt characterDescription
                               sceneActionDescription) in
  finalPrompt ++ newline2 ++ instructionSection influence.

Definition modelFor (quality : Quality) : jsstring :=
  match quality with
  | high => lit "gemini-3-pro-image-preview"
  | standard => lit "gemini-2.5-flash-image"
  end.

Definition configFor (quality : Quality) : option jsstring :=
  match quality with
  | high => Some (lit "2K")
  | standard => None
  end.

Definition stylizeRequest (base64Data mimeType prompt : jsstring)
    (influence : Z) (characterDescription sceneActionDescription : jsstring)
    (quality : Quality) : Request :=
  {| req_model := modelFor quality;
     req_text := finalPrompt prompt influence characterDescription
                             sceneActionDescription;
     req_data := cleanBase64 base64Data;
     req_mimeType := mimeType;
     req_imageSize := configFor quality |}.

(** The data URI built from an inline part. *)
Definition dataUrl (d : InlineData) : jsstring :=
  lit "data:" ++ or_else (mimeType d) (lit "image/png")
    ++ lit ";base64," ++ to_string_opt (data d).

(** One iteration of the loop over [content.parts]; the state is the pair
    of the locals [imageUrl] and [textResponse]. *)
Definition scanPart (acc : option jsstring * option jsstring) (part : Part)
  : option jsstring * option jsstring :=
  match inlineData part with
  | Some d => (Some (dataUrl d), snd acc)
  | None =>
      if truthy_opt (part_text part) then (fst acc, part_text part) else acc
  end.

Definition scanParts (ps : list Part)
  : option jsstring * option jsstring :=
  fold_left scanPart ps (None, None).

(** The parts the loop runs over: those of the first candidate, when the
    response has candidates, that candidate has content and the content has
    parts. *)
Definition scannedParts (response : Response) : list Part :=
  match candidates response with
  | Some (c :: _) =>
      match content c with
      | Some ct =>
          match parts ct with
          | Some ps => ps
          | None => []
          end
      | None => []
      end
  | Some [] | None => []
  end.

Definition scanResponse (response : Response)
  : option jsstring * option jsstring :=
  scanParts (scannedParts response).

(** What follows the loop: fail without an image, return otherwise. *)
Definition conclude (scanned : option jsstring * option jsstring) : Attempt :=
  let (imageUrl, textResponse) := scanned in
  if negb (truthy_opt imageUrl) then
    if truthy_opt textResponse
    then Raised (Some (modelDeclinedPrefix ++ to_string_opt textResponse))
    else Raised (Some emptyResponseMessage)
  else Normal {| imageUrl := imageUrl; text := textResponse |}.

(** The [try] block of [generateStylizedImage]. *)
Definition stylizeTry (apiKey : option jsstring) (service : Service)
    (base64Data mimeType prompt : jsstring) (influence : Z)
    (characterDescription sceneActionDescription : jsstring)
    (quality : Quality) : list Request * Attempt :=
  if negb (truthy_opt apiKey) then ([], Raised (Some missingKeyMessage))
  else
    let request := stylizeRequest base64Data mimeType prompt influence
                     characterDescription sceneActionDescription quality in
    match service request with
    | Rejected message => ([request], Raised message)
    | Resolved response => ([request], conclude (scanResponse response))
    end.

(** The [catch] block of [generateStylizedImage]: the message of the error
    it throws. *)
Definition stylizeCatch (error_message : option jsstring) : jsstring :=
  let message := or_else error_message unknownErrorMessage in
  if includes message entityNotFoundMarker then entityNotFoundMessage
  else if includes message (lit "403") || includes message (lit "API key")
  then invalidApiKeyMessage
  else if includes message (lit "400") then invalidRequestMessage
  else if includes message (lit "503") || includes message (lit "Overloaded")
  then overloadedMessage
  else if includes message (lit "SAFETY") then safetyMessage
  else message.

Definition generateStylizedImage (apiKey : option jsstring)
    (service : Service) (base64Data mimeType prompt : jsstring)
    (influence : Z) (characterDescription sceneActionDescription : jsstring)
    (quality : Quality) : Run :=
  let (requests, attempt) :=
    stylizeTry apiKey service base64Data mimeType prompt influence
               characterDescription sceneActionDescription quality in
  match attempt with
  | Normal r => {| sent := requests; outcome := Returned r |}
  | Raised message =>
      {| sent := requests; outcome := Threw (stylizeCatch message) |}
  end.

Definition removeBackgroundPrompt : jsstring :=
  lit "Remove the background from this image. Keep the main subject exactly as is, but place it on a solid white background.".
Definition removalFailedMessage : jsstring :=
  lit "Failed to remove background.".
Definition removalWrapPrefix : jsstring :=
  lit "Background removal failed: ".

Definition removeRequest (base64Data mimeType : jsstring) : Request :=
  {| req_model := lit "gemini-2.5-flash-image";
     req_text := removeBackgroundPrompt;
     req_data := cleanBase64 base64Data;
     req_mimeType := mimeType;
     req_imageSize := None |}.

(** The loop of [removeBackground]: only inline parts are looked at. *)
Definition scanImage (acc : option jsstring) (part : Part)
  : option jsstring :=
  match inlineData part with
  | Some d => Some (dataUrl d)
  | None => acc
  end.

Definition removeTry (service : Service) (base64Data mimeType : jsstring)
  : list Request * Attempt :=
  let request := removeRequest base64Data mimeType in
  match service request with
  | Rejected message => ([request], Raised message)
  | Resolved response =>
      let imageUrl := fold_left scanImage (scannedParts response) None in
      if negb (truthy_opt imageUrl)
      then ([request], Raised (Some removalFailedMessage))
      else ([request], Normal {| imageUrl := imageUrl; text := None |})
  end.

Definition removeCatch (error_message : option jsstring) : jsstring :=
  if truthy_opt error_message
     && includes (to_string_opt error_message) entityNotFoundMarker
  then entityNotFoundMessage
  else removalWrapPrefix ++ to_string_opt error_message.

Definition removeBackground (apiKey : option jsstring) (service : Service)
    (base64Data mimeType : jsstring) : Run :=
  if negb (truthy_opt apiKey)
  then {| sent := []; outcome := Threw missingKeyMessage |}
  else
    let (requests, attempt) := removeTry service base64Data mimeType in
    match attempt with
    | Normal r => {| sent := requests; outcome := Returned r |}
    | Raised message =>
        {| sent := requests; outcome := Threw (removeCatch message) |}
    end.

End GeminiService.

(** ** The component state touched by [handleGenerate] ([App.tsx]) *)

Module App.

Import GeminiService.

Inductive AppStatus :=
| IDLE | UPLOADING | GENERATING | REMOVING_BACKGROUND | SUCCESS | ERROR.

(** [UploadedFile] without its optional browser [File] handle, which the
    handlers modelled here never read. *)
Record UploadedFile := {
  previewUrl : jsstring;
  base64 : jsstring;
  up_mimeType : jsstring
}.

Record State := {
  status : AppStatus;
  uploadedImage : option UploadedFile;
  prompt : jsstring;
  influence : Z;
  characterDescription : jsstring;
  sceneAction : jsstring;
  quality : Quality;
  generatedImages : list GeneratedImage;
  errorMessage : option jsstring
}.

(** The updater [prev => [newImage, ...prev].slice(0, 4)]. *)
Definition keepLast4 (newImage : GeneratedImage)
    (prev : list GeneratedImage) : list GeneratedImage :=
  firstn 4 (newImage :: prev).

(** The history after a run of updates, oldest update first. *)
Fixpoint historyAfter (prev : list GeneratedImage)
    (news : list GeneratedImage) : list GeneratedImage :=
  match news with
  | [] => prev
  | newImage :: rest => historyAfter (keepLast4 newImage prev) rest
  end.

Definition newImageOf (now_id now_ts : Z) (url prompt : jsstring)
  : GeneratedImage :=
  {| id := number_to_string now_id;
     gi_imageUrl := url;
     timestamp := now_ts;
     promptUsed := prompt |}.

(** [handleGenerate]: the state once the handler has finished, and the
    requests it caused.  [now_id] and [now_ts] are the two readings of the
    clock taken for a new history entry. *)
Definition handleGenerate (apiKey : option jsstring) (service : Service)
    (now_id now_ts : Z) (st : State) : State * list Request :=
  match uploadedImage st with
  | None =>
      ({| status := status st; uploadedImage := uploadedImage st;
          prompt := prompt st; influence := influence st;
          characterDescription := characterDescription st;
          sceneAction := sceneAction st; quality := quality st;
          generatedImages := generatedImages st;
          errorMessage := Some (lit "Please upload an image first.") |}, [])
  | Some up =>
      let run :=
        generateStylizedImage apiKey service (base64 up) (up_mimeType up)
          (prompt st) (influence st) (characterDescription st)
          (sceneAction st) (quality st) in
      let finish status' images' error' :=
        {| status := status'; uploadedImage := uploadedImage st;
           prompt := prompt st; influence := influence st;
           characterDescription := characterDescription st;
           sceneAction := sceneAction st; quality := quality st;
           generatedImages := images'; errorMessage := error' |} in
      match outcome run with
      | Returned genResult =>
          match imageUrl genResult with
          | Some (c :: u) =>
              (finish SUCCESS
                 (keepLast4 (newImageOf now_id now_ts (c :: u) (prompt st))
                            (generatedImages st))
                 None, sent run)
          | Some [] | None =>
              (finish GENERATING (generatedImages st) None, sent run)
          end
      | Threw message =>
          (finish ERROR (generatedImages st)
             (Some (or_else (Some message)
                      (lit "An error occurred during generation."))),
           sent run)
      end
  end.

End App.

Import GeminiService.

(** ** The other handlers of [App.tsx] *)

Module Handlers.

Import GeminiService App.

(** What [handleFileSelect] reads of the browser's [File]. *)
Record File := {
  file_type : jsstring;
  file_size : Z
}.

(** [status === GENERATING || status === REMOVING_BACKGROUND
     || status === UPLOADING] *)
Definition isProcessing (st : State) : bool :=
  match status st with
  | GENERATING | REMOVING_BACKGROUND | UPLOADING => true
  | IDLE | SUCCESS | ERROR => false
  end.

(** The state with its three handler-written fields replaced. *)
Definition withUpload (st : State) (status' : AppStatus)
    (uploaded' : option UploadedFile) (error' : option jsstring) : State :=
  {| status := status'; uploadedImage := uploaded';
     prompt := prompt st; influence := influence st;
     characterDescription := characterDescription st;
     sceneAction := sceneAction st; quality := quality st;
     generatedImages := generatedImages st; errorMessage := error' |}.

(** [handleFileSelect]: [selected] is [e.target.files[0]] when there is
    one, [readResult] what [fileToBase64] resolves with ([None] when the
    reader fails) and [objectUrl] the value of [URL.createObjectURL]. *)
Definition handleFileSelect (selected : option File)
    (readResult : option jsstring) (objectUrl : jsstring) (st : State)
  : State :=
  match selected with
  | None => st
  | Some file =>
      if negb (starts_with (lit "image/") (file_type file))
      then withUpload st (status st) (uploadedImage st)
             (Some (lit "Please upload a valid image file (JPG or PNG)."))
      else if (5 * 1024 * 1024 <? file_size file)%Z
      then withUpload st (status st) (uploadedImage st)
             (Some (lit "File size should be less than 5MB."))
      else
        match readResult with
        | Some base64 =>
            withUpload st IDLE
              (Some {| previewUrl := objectUrl; base64 := base64;
                       up_mimeType := file_type file |})
              None
        | None =>
            withUpload st ERROR (uploadedImage st)
              (Some (lit "Failed to process image. Please try again."))
        end
  end.

(** The three locals [handleBackgroundRemoval] reads off the returned
    image URL.  Calling [split] on an undefined value raises a type error;
    an index out of range is [undefined]. *)
Inductive Parsed :=
| ParseThrows
| ParsedAs (base64Data mime : option jsstring).

Definition parseDataUrl (imageUrl : jsstring) : Parsed :=
  let parts := split imageUrl (lit ",") in
  let meta := index parts 0 in
  let base64Data := index parts 1 in
  match meta with
  | None => ParseThrows
  | Some meta =>
      match index (split meta (lit ":")) 1 with
      | None => ParseThrows
      | Some rest => ParsedAs base64Data (index (split rest (lit ";")) 0)
      end
  end.

(** The uploaded image as the handler may leave it at run time. *)
Record RawUpload := {
  raw_previewUrl : jsstring;
  raw_base64 : option jsstring;
  raw_mimeType : option jsstring
}.

Definition rawOf (up : UploadedFile) : RawUpload :=
  {| raw_previewUrl := previewUrl up;
     raw_base64 := Some (base64 up);
     raw_mimeType := Some (up_mimeType up) |}.

(** The fields [handleBackgroundRemoval] writes, once it has finished, and
    the requests it caused. *)
Record RemovalEnd := {
  end_status : AppStatus;
  end_uploaded : option RawUpload;
  end_error : option jsstring;
  end_sent : list Request
}.

(** [handleBackgroundRemoval]; [typeErrorMessage] is the message the
    engine gives the type error of [parseDataUrl]. *)
Definition handleBackgroundRemoval (apiKey : option jsstring)
    (service : Service) (typeErrorMessage : jsstring) (st : State)
  : RemovalEnd :=
  match uploadedImage st with
  | None =>
      {| end_status := status st; end_uploaded := None;
         end_error := errorMessage st; end_sent := [] |}
  | Some up =>
      let run := removeBackground apiKey service (base64 up)
                   (up_mimeType up) in
      let failed message :=
        {| end_status := ERROR; end_uploaded := Some (rawOf up);
           end_error :=
             Some (or_else (Some message)
                     (lit "Failed to remove background."));
           end_sent := sent run |} in
      match outcome run with
      | Returned bgResult =>
          match imageUrl bgResult with
          | Some (c :: u) =>
              match parseDataUrl (c :: u) with
              | ParsedAs base64Data mime =>
                  {| end_status := IDLE;
                     end_uploaded :=
                       Some {| raw_previewUrl := c :: u;
                               raw_base64 := base64Data;
                               raw_mimeType := mime |};
                     end_error := None; end_sent := sent run |}
              | ParseThrows => failed typeErrorMessage
              end
          | Some [] | None =>
              {| end_status := REMOVING_BACKGROUND;
                 end_uploaded := Some (rawOf up);
                 end_error := None; end_sent := sent run |}
          end
      | Threw message => failed message
      end
  end.

End Handlers.

(** ** Vocabulary of the properties *)

Definition comma : code_unit := 44%N.

(** The base64 alphabet, padding included. *)
Definition base64_alphabet (c : code_unit) : bool :=
  ((65 <=? c) && (c <=? 90) || (97 <=? c) && (c <=? 122)
   || (48 <=? c) && (c <=? 57) || (c =? 43) || (c =? 47) || (c =? 61))%N.

(** A code unit [trim] keeps. *)
Definition not_white_space (c : code_unit) : bool := negb (is_white_space c).

(** The last element of a list, if any. *)
Fixpoint last_opt {A} (l : list A) : option A :=
  match l with
  | [] => None
  | [x] => Some x
  | _ :: rest => last_opt rest
  end.

(** The inline-image parts of a part list: the parts that carry an
    [inlineData] payload, in order. *)
Definition imageParts (ps : list Part) : list InlineData :=
  flat_map (fun p => match inlineData p with
                     | Some d => [d]
                     | None => []
                     end) ps.

(** The text parts of a part list: the texts of the parts that carry a
    text payload (a non-empty [text]) and no inline payload, in order. *)
Definition textParts (ps : list Part) : list jsstring :=
  flat_map (fun p => match inlineData p, part_text p with
                     | None, Some (c :: t) => [c :: t]
                     | _, _ => []
                     end) ps.

(** The texts of the parts that have a [text] field, empty or not, and no
    inline payload, in order. *)
Definition textFields (ps : list Part) : list jsstring :=
  flat_map (fun p => match inlineData p, part_text p with
                     | None, Some t => [t]
                     | _, _ => []
                     end) ps.

(** Whether a part carries an inline payload, and whether it carries a
    text payload. *)
Definition carriesImage (p : Part) : bool :=
  match inlineData p with
  | Some _ => true
  | None => false
  end.

Definition carriesText (p : Part) : bool := truthy_opt (part_text p).

(** A response made of the given candidates' part lists. *)
Definition responseOf (cs : list (list Part)) : Response :=
  {| candidates :=
       Some (map (fun ps => {| content := Some {| parts := Some ps |} |}) cs) |}.

(** A stub service that echoes the transmitted image back, unmodified, as
    the single inline part of a single candidate. *)
Definition echoService : Service :=
  fun request =>
    Resolved (responseOf
      [[ {| inlineData := Some {| data := req_data request;
                                  mimeType := Some (req_mimeType request) |};
            part_text := None |} ]]).

(** Whether a message carries one of the signals the handler of
    [generateStylizedImage] looks for. *)
Definition knownSignal (message : jsstring) : bool :=
  includes message entityNotFoundMarker
  || includes message (lit "403") || includes message (lit "API key")
  || includes message (lit "400")
  || includes message (lit "503") || includes message (lit "Overloaded")
  || includes message (lit "SAFETY").

(** The part of a string before the first occurrence of a code unit (the
    whole string when there is none), and the part after it. *)
Fixpoint before (c : code_unit) (s : jsstring) : jsstring :=
  match s with
  | [] => []
  | x :: s' => if N.eqb c x then [] else x :: before c s'
  end.

Fixpoint after (c : code_unit) (s : jsstring) : option jsstring :=
  match s with
  | [] => None
  | x :: s' => if N.eqb c x then Some s' else after c s'
  end.

Definition colon : code_unit := 58%N.
Definition semicolon : code_unit := 59%N.

(** Within [rev cur ++ s], the separator matches at no position of the
    part [rev cur]. *)
Definition noMatchIn (sep cur s : jsstring) : Prop :=
  forall a b, rev cur = a ++ b -> b <> [] -> starts_with sep (b ++ s) = false.

(** * Properties *)

(** ** String primitives *)

Example split_data_url :
  split (lit "data:image/png;base64,QUJD") (lit "base64,")
  = [lit "data:image/png;"; lit "QUJD"].
Proof. reflexivity. Qed.

Example split_trailing_separator :
  split (lit "abase64,") (lit "base64,") = [lit "a"; []].
Proof. reflexivity. Qed.

Example split_two_separators :
  split (lit "xbase64,ybase64,z") (lit "base64,")
  = [lit "x"; lit "y"; lit "z"].
Proof. reflexivity. Qed.

Example includes_is_case_sensitive :
  includes missingKeyMessage (lit "API key") = false
  /\ includes (lit "Invalid API key provided") (lit "API key") = true.
Proof. split; reflexivity. Qed.

Example trim_blank : trim [32%N; 9%N; 160%N; 10%N] = [].
Proof. reflexivity. Qed.

Example trim_inner_space : trim (lit "  a b ") = lit "a b".
Proof. reflexivity. Qed.

Example number_to_string_samples :
  number_to_string 0 = lit "0" /\ number_to_string 5 = lit "5"
  /\ number_to_string 100 = lit "100".
Proof. repeat split; reflexivity. Qed.

Lemma starts_with_app (sub s : jsstring) :
  starts_with sub s = true -> exists rest, s = sub ++ rest.
Proof.
  revert s; induction sub as [|a sub IH]; intros s H.
  - exists s; reflexivity.
  - destruct s as [|b s]; [discriminate|].
    simpl in H. apply andb_prop in H as [Hab Hs].
    apply N.eqb_eq in Hab; subst b.
    destruct (IH _ Hs) as [rest ->].
    exists rest; reflexivity.
Qed.

Lemma includes_In (s sub : jsstring) (c : code_unit) :
  In c sub -> includes s sub = true -> In c s.
Proof.
  intros Hc; induction s as [|b s IH]; intros H.
  - simpl in H. apply starts_with_app in H as [rest Hrest].
    destruct sub; [destruct Hc | discriminate].
  - simpl in H. apply orb_prop in H as [H|H].
    + apply starts_with_app in H as [rest ->].
      apply in_or_app; left; exact Hc.
    + right; auto.
Qed.

Lemma split_from_nonempty (sep s : jsstring) (skip : nat) (cur : jsstring) :
  split_from sep s skip cur <> [].
Proof.
  revert skip cur; induction s as [|c s IH]; intros skip cur; simpl.
  - discriminate.
  - destruct skip; [|apply IH].
    destruct (starts_with sep (c :: s)); [discriminate | apply IH].
Qed.

Lemma split_includes_length (sep s cur : jsstring) :
  sep <> [] -> includes s sep = true ->
  2 <= List.length (split_from sep s 0 cur).
Proof.
  intros Hsep; revert cur; induction s as [|c s IH]; intros cur H.
  - simpl in H. destruct sep; [congruence | discriminate].
  - simpl in H. cbn [split_from].
    destruct (starts_with sep (c :: s)) eqn:E.
    + pose proof (split_from_nonempty sep s (pred (List.length sep)) []) as Hne.
      destruct (split_from sep s (pred (List.length sep)) []);
        [congruence | simpl; lia].
    + simpl in H. apply IH. exact H.
Qed.

(** The index [1] read by [cleanBase64] is always in range: the transmitted
    payload is never [undefined]. *)
Lemma cleanBase64_defined (base64Data : jsstring) :
  exists payload, cleanBase64 base64Data = Some payload.
Proof.
  unfold cleanBase64.
  destruct (includes base64Data (lit "base64,")) eqn:E; [|eauto].
  pose proof (split_includes_length (lit "base64,") base64Data []) as H.
  unfold split, index.
  destruct (split_from (lit "base64,") base64Data 0 []) as [|x [|y l]] eqn:Es.
  - simpl in H. assert (2 <= 0) by (apply H; [discriminate | exact E]). lia.
  - simpl in H. assert (2 <= 1) by (apply H; [discriminate | exact E]). lia.
  - simpl. eauto.
Qed.

(** *** Splitting a data URL at ["base64,"] *)

Lemma base64_no_comma (s : jsstring) :
  forallb base64_alphabet s = true -> ~ In comma s.
Proof.
  intros H Hin.
  rewrite forallb_forall in H. specialize (H _ Hin). discriminate H.
Qed.

Lemma starts_with_self (sub rest : jsstring) :
  starts_with sub (sub ++ rest) = true.
Proof.
  induction sub as [|a sub IH]; simpl; [reflexivity|].
  rewrite N.eqb_refl; exact IH.
Qed.

Lemma includes_after (pre s sub : jsstring) :
  includes s sub = true -> includes (pre ++ s) sub = true.
Proof.
  intros H; induction pre as [|c pre IH]; simpl; [exact H|].
  rewrite IH; apply orb_true_r.
Qed.

Lemma starts_with_includes (s sub : jsstring) :
  starts_with sub s = true -> includes s sub = true.
Proof.
  destruct s; simpl; intros H; [exact H | rewrite H; reflexivity].
Qed.

Lemma includes_self (sub rest : jsstring) :
  includes (sub ++ rest) sub = true.
Proof.
  apply starts_with_includes, starts_with_self.
Qed.

Lemma no_match_without_comma (s : jsstring) :
  ~ In comma s -> starts_with (lit "base64,") s = false.
Proof.
  intros H. destruct (starts_with (lit "base64,") s) eqn:E; [|reflexivity].
  apply starts_with_app in E as [rest ->].
  exfalso; apply H. apply in_or_app; left.
  vm_compute. tauto.
Qed.

Lemma includes_without_comma (s : jsstring) :
  ~ In comma s -> includes s (lit "base64,") = false.
Proof.
  intros H. destruct (includes s (lit "base64,")) eqn:E; [|reflexivity].
  exfalso; apply H. apply (includes_In s (lit "base64,")); [|exact E].
  vm_compute. tauto.
Qed.

(** Before the first comma-free header has been passed, the separator
    cannot match: its comma would have to fall on a code unit of the header
    or on one of the letters of ["base64"]. *)
Lemma no_early_match (c : code_unit) (pre rest : jsstring) :
  ~ In comma (c :: pre) ->
  starts_with (lit "base64,") ((c :: pre) ++ lit "base64," ++ rest) = false.
Proof.
  intros H.
  destruct (starts_with (lit "base64,") ((c :: pre) ++ lit "base64," ++ rest))
    eqn:E; [|reflexivity].
  exfalso.
  apply starts_with_app in E as [r Hr].
  apply (f_equal (fun l => nth_error l 6)) in Hr.
  change (nth_error (lit "base64," ++ r) 6) with (Some comma) in Hr.
  destruct pre as [|c1 [|c2 [|c3 [|c4 [|c5 [|c6 tl]]]]]];
    try (vm_compute in Hr; discriminate Hr).
  cbn in Hr. injection Hr as Hr. apply H. rewrite <- Hr.
  simpl; tauto.
Qed.

Lemma split_from_plain (s cur : jsstring) :
  ~ In comma s ->
  split_from (lit "base64,") s 0 cur = [rev cur ++ s].
Proof.
  revert cur; induction s as [|c s IH]; intros cur H.
  - simpl. rewrite app_nil_r. reflexivity.
  - cbn [split_from]. rewrite (no_match_without_comma _ H).
    rewrite IH by (intros Hin; apply H; right; exact Hin).
    simpl. rewrite <- app_assoc. reflexivity.
Qed.

Lemma split_from_header (pre rest cur : jsstring) :
  ~ In comma pre ->
  split_from (lit "base64,") (pre ++ lit "base64," ++ rest) 0 cur
  = (rev cur ++ pre) :: split_from (lit "base64,") rest 0 [].
Proof.
  revert cur; induction pre as [|c pre IH]; intros cur H.
  - rewrite app_nil_r. cbn [app].
    change (lit "base64," ++ rest)
      with (98%N :: 97%N :: 115%N :: 101%N :: 54%N :: 52%N :: 44%N :: rest).
    cbn [split_from].
    replace (starts_with (lit "base64,")
               (98%N :: 97%N :: 115%N :: 101%N :: 54%N :: 52%N :: 44%N :: rest))
      with true by (symmetry; apply (starts_with_self (lit "base64,") rest)).
    destruct rest; reflexivity.
  - change ((c :: pre) ++ lit "base64," ++ rest)
      with (c :: (pre ++ lit "base64," ++ rest)).
    cbn [split_from].
    change (c :: (pre ++ lit "base64," ++ rest))
      with ((c :: pre) ++ lit "base64," ++ rest).
    rewrite (no_early_match c pre rest H).
    rewrite IH by (intros Hin; apply H; right; exact Hin).
    simpl. rewrite <- app_assoc. reflexivity.
Qed.

Lemma cleanBase64_plain (payload : jsstring) :
  ~ In comma payload -> cleanBase64 payload = Some payload.
Proof.
  intros H. unfold cleanBase64.
  rewrite (includes_without_comma _ H). reflexivity.
Qed.

Lemma cleanBase64_header (header payload : jsstring) :
  ~ In comma header -> ~ In comma payload ->
  cleanBase64 (header ++ lit "base64," ++ payload) = Some payload.
Proof.
  intros Hh Hp. unfold cleanBase64.
  rewrite includes_after by apply includes_self.
  unfold split. rewrite (split_from_header header payload [] Hh).
  rewrite (split_from_plain payload [] Hp). reflexivity.
Qed.

(** ** Guidance bands *)

(** C1: every integer influence in [0,100] selects exactly one guidance
    sentence: 0 the "ignore" sentence, 1..29 the "loose reference" sentence,
    30..69 the "maintain" sentence, 70..100 the "strictly adhere" sentence;
    the four sentences are pairwise different, the selected one is the one
    the transmitted instruction carries, and the values 0, 29, 30, 69, 70,
    100 select the first, second, third, third, fourth and fourth. *)
Theorem guidance_bands (influence : Z) :
  (0 <= influence <= 100)%Z ->
  (influence = 0%Z -> guidance influence = ignoreSentence)
  /\ ((0 < influence < 30)%Z -> guidance influence = looseSentence)
  /\ ((30 <= influence < 70)%Z -> guidance influence = maintainSentence)
  /\ ((70 <= influence)%Z -> guidance influence = strictSentence)
  /\ NoDup [ignoreSentence; looseSentence; maintainSentence; strictSentence]
  /\ (forall base64Data mimeType prompt characterDescription
             sceneActionDescription quality,
        exists before,
          req_text (stylizeRequest base64Data mimeType prompt influence
                      characterDescription sceneActionDescription quality)
          = before ++ lit "IMPORTANT INSTRUCTION: " ++ guidance influence
              ++ lit " (Structural Adherence: "
              ++ number_to_string influence ++ lit "%)")
  /\ guidance 0 = ignoreSentence
  /\ guidance 29 = looseSentence
  /\ guidance 30 = maintainSentence
  /\ guidance 69 = maintainSentence
  /\ guidance 70 = strictSentence
  /\ guidance 100 = strictSentence.
Proof.
  intros Hrange.
  repeat split; try reflexivity.
  - intros ->. reflexivity.
  - intros H. unfold guidance.
    destruct (Z.eqb_spec influence 0); [lia|].
    destruct (Z.ltb_spec influence 30); [reflexivity | lia].
  - intros H. unfold guidance.
    destruct (Z.eqb_spec influence 0); [lia|].
    destruct (Z.ltb_spec influence 30); [lia|].
    destruct (Z.ltb_spec influence 70); [reflexivity | lia].
  - intros H. unfold guidance.
    destruct (Z.eqb_spec influence 0); [lia|].
    destruct (Z.ltb_spec influence 30); [lia|].
    destruct (Z.ltb_spec influence 70); [lia | reflexivity].
  - repeat constructor; simpl; intuition discriminate.
  - intros. cbn [stylizeRequest req_text].
    unfold finalPrompt, instructionSection.
    exists (join newline2 (promptParts prompt characterDescription
                             sceneActionDescription) ++ newline2).
    rewrite <- app_assoc. reflexivity.
Qed.

Lemma guidance_bands_witness :
  (0 <= 30 <= 100)%Z /\ guidance 30 = maintainSentence.
Proof.
  split; [lia|].
  apply (guidance_bands 30); lia.
Defined.

(** ** Assembly of the instruction *)

Lemma trim_start_truthy (s : jsstring) :
  truthy (trim_start s) = existsb not_white_space s.
Proof.
  induction s as [|c s IH]; simpl; [reflexivity|].
  unfold not_white_space at 1.
  destruct (is_white_space c); simpl; [exact IH | reflexivity].
Qed.

Lemma trim_start_keeps (s : jsstring) :
  existsb not_white_space (trim_start s) = existsb not_white_space s.
Proof.
  induction s as [|c s IH]; simpl; [reflexivity|].
  destruct (is_white_space c) eqn:E; simpl.
  - rewrite IH. unfold not_white_space at 2. rewrite E. reflexivity.
  - reflexivity.
Qed.

Lemma existsb_rev_eq (f : code_unit -> bool) (s : jsstring) :
  existsb f (rev s) = existsb f s.
Proof.
  induction s as [|c s IH]; simpl; [reflexivity|].
  rewrite existsb_app, IH. simpl. rewrite orb_false_r. apply orb_comm.
Qed.

Lemma truthy_rev (s : jsstring) : truthy (rev s) = truthy s.
Proof.
  destruct s as [|c s]; [reflexivity|].
  simpl. destruct (rev s); reflexivity.
Qed.

(** A string is non-empty after trimming exactly when it holds a code unit
    that is not white space. *)
Lemma trim_truthy (s : jsstring) :
  truthy (trim s) = existsb not_white_space s.
Proof.
  unfold trim.
  rewrite truthy_rev, trim_start_truthy, existsb_rev_eq.
  apply trim_start_keeps.
Qed.

(** C2: the instruction is, in this order, the character section when the
    character description is non-empty after trimming, the scene section
    when the scene description is non-empty after trimming, the style
    section (the user's prompt followed by the fixed vintage qualifier), and
    the guidance sentence annotated with the influence percentage; a blank
    optional field contributes nothing.  With an empty character
    description and a non-blank scene description the instruction starts
    with the scene section. *)
Theorem instruction_assembly
    (prompt characterDescription sceneActionDescription : jsstring)
    (influence : Z) :
  (0 <= influence <= 100)%Z ->
  finalPrompt prompt influence characterDescription sceneActionDescription
  = (if existsb not_white_space characterDescription
     then lit "Subject Description: " ++ characterDescription ++ lit "."
            ++ newline2
     else [])
    ++ (if existsb not_white_space sceneActionDescription
        then lit "Scene & Action: " ++ sceneActionDescription ++ lit "."
               ++ newline2
        else [])
    ++ lit "Style & Atmosphere: " ++ prompt ++ lit ". " ++ aestheticBase
    ++ newline2
    ++ lit "IMPORTANT INSTRUCTION: " ++ guidance influence
    ++ lit " (Structural Adherence: " ++ number_to_string influence
    ++ lit "%)"
  /\ (existsb not_white_space sceneActionDescription = true ->
      finalPrompt prompt influence [] sceneActionDescription
      = lit "Scene & Action: " ++ sceneActionDescription ++ lit "."
        ++ newline2
        ++ lit "Style & Atmosphere: " ++ prompt ++ lit ". " ++ aestheticBase
        ++ newline2
        ++ lit "IMPORTANT INSTRUCTION: " ++ guidance influence
        ++ lit " (Structural Adherence: " ++ number_to_string influence
        ++ lit "%)")
  /\ (forall base64Data mimeType quality,
        req_text (stylizeRequest base64Data mimeType prompt influence
                    characterDescription sceneActionDescription quality)
        = finalPrompt prompt influence characterDescription
                      sceneActionDescription).
Proof.
  intros _.
  assert (Hgen : forall cd sa,
    finalPrompt prompt influence cd sa
    = (if existsb not_white_space cd
       then lit "Subject Description: " ++ cd ++ lit "." ++ newline2
       else [])
      ++ (if existsb not_white_space sa
          then lit "Scene & Action: " ++ sa ++ lit "." ++ newline2
          else [])
      ++ lit "Style & Atmosphere: " ++ prompt ++ lit ". " ++ aestheticBase
      ++ newline2
      ++ lit "IMPORTANT INSTRUCTION: " ++ guidance influence
      ++ lit " (Structural Adherence: " ++ number_to_string influence
      ++ lit "%)").
  { intros cd sa.
    unfold finalPrompt, promptParts, subjectSection, sceneSection,
      styleSection, instructionSection.
    rewrite !trim_truthy.
    destruct (existsb not_white_space cd), (existsb not_white_space sa);
      cbn [app join]; repeat rewrite <- app_assoc; reflexivity. }
  split; [apply Hgen|]. split; [|reflexivity].
  intros Hsa. rewrite Hgen, Hsa. cbn [existsb app].
  repeat rewrite <- app_assoc. reflexivity.
Qed.

Lemma instruction_assembly_witness :
  (0 <= 50 <= 100)%Z
  /\ finalPrompt (lit "Soft watercolor, dreamy, pastel.") 50 []
       (lit "Reading a book in a cozy cafe")
     = lit "Scene & Action: Reading a book in a cozy cafe."
       ++ newline2
       ++ lit "Style & Atmosphere: Soft watercolor, dreamy, pastel.. "
       ++ aestheticBase ++ newline2
       ++ lit "IMPORTANT INSTRUCTION: " ++ maintainSentence
       ++ lit " (Structural Adherence: 50%)".
Proof.
  split; [lia|].
  rewrite (proj1 (instruction_assembly (lit "Soft watercolor, dreamy, pastel.")
                    [] (lit "Reading a book in a cozy cafe") 50
                    ltac:(lia))).
  vm_compute. reflexivity.
Defined.

(** ** The scan over the response parts *)

Lemma last_opt_cons {A} (x : A) (l : list A) :
  last_opt (x :: l) = match last_opt l with
                      | Some y => Some y
                      | None => Some x
                      end.
Proof.
  destruct l as [|y l]; [reflexivity|].
  change (last_opt (x :: y :: l)) with (last_opt (y :: l)).
  destruct (last_opt (y :: l)) eqn:E; [reflexivity|].
  exfalso. clear x. revert y E.
  induction l as [|z l IH]; intros y E; [discriminate|].
  apply (IH z). exact E.
Qed.

Lemma last_opt_In {A} (x : A) (l : list A) :
  last_opt l = Some x -> In x l.
Proof.
  induction l as [|y l IH]; [discriminate|].
  rewrite last_opt_cons. destruct (last_opt l) eqn:E.
  - intros H. right. apply IH. exact H.
  - intros H. injection H as ->. left; reflexivity.
Qed.

Lemma textParts_truthy (ps : list Part) (t : jsstring) :
  In t (textParts ps) -> truthy t = true.
Proof.
  unfold textParts. rewrite in_flat_map. intros [p [_ H]].
  destruct (inlineData p); [destruct H|].
  destruct (part_text p) as [[|c u]|]; [destruct H | | destruct H].
  destruct H as [H|[]]. subst t. reflexivity.
Qed.

Lemma dataUrl_truthy (d : InlineData) : truthy (dataUrl d) = true.
Proof. reflexivity. Qed.

(** The loop started from any values of the two locals. *)
Lemma scan_fold (ps : list Part) (acc : option jsstring * option jsstring) :
  fold_left GeminiService.scanPart ps acc
  = (match last_opt (imageParts ps) with
     | Some d => Some (dataUrl d)
     | None => fst acc
     end,
     match last_opt (textParts ps) with
     | Some t => Some t
     | None => snd acc
     end).
Proof.
  revert acc; induction ps as [|p ps IH]; intros acc.
  - destruct acc; reflexivity.
  - cbn [fold_left]. rewrite IH. unfold scanPart, imageParts, textParts.
    cbn [flat_map]. fold (imageParts ps). fold (textParts ps).
    destruct (inlineData p) as [d|].
    + cbn [app fst snd]. rewrite last_opt_cons.
      destruct (last_opt (imageParts ps)); reflexivity.
    + destruct (part_text p) as [[|c u]|]; cbn [truthy_opt truthy app];
        try reflexivity.
      rewrite last_opt_cons. cbn [fst snd].
      destruct (last_opt (textParts ps)); reflexivity.
Qed.

Lemma scanParts_last (ps : list Part) :
  scanParts ps
  = (option_map dataUrl (last_opt (imageParts ps)), last_opt (textParts ps)).
Proof.
  unfold scanParts. rewrite scan_fold. cbn [fst snd].
  destruct (last_opt (imageParts ps)), (last_opt (textParts ps));
    reflexivity.
Qed.

(** What the code after the loop makes of a scanned part list. *)
Lemma conclude_scan (ps : list Part) :
  conclude (scanParts ps)
  = match last_opt (imageParts ps) with
    | Some d => Normal {| imageUrl := Some (dataUrl d);
                          text := last_opt (textParts ps) |}
    | None =>
        match last_opt (textParts ps) with
        | Some t => Raised (Some (modelDeclinedPrefix ++ t))
        | None => Raised (Some emptyResponseMessage)
        end
    end.
Proof.
  rewrite scanParts_last. unfold conclude.
  destruct (last_opt (imageParts ps)) as [d|]; cbn [option_map].
  - cbn [truthy_opt]. rewrite dataUrl_truthy. reflexivity.
  - cbn [truthy_opt negb].
    destruct (last_opt (textParts ps)) as [t|] eqn:E; [|reflexivity].
    cbn [truthy_opt]. rewrite (textParts_truthy ps t (last_opt_In t _ E)).
    reflexivity.
Qed.

Lemma scannedParts_responseOf (ps : list Part) (rest : list (list Part)) :
  scannedParts (responseOf (ps :: rest)) = ps.
Proof. reflexivity. Qed.

(** The two ways the awaited call can end, once the key is there. *)
Lemma stylize_resolved (apiKey : option jsstring) (service : Service)
    (base64Data mimeType prompt : jsstring) (influence : Z)
    (characterDescription sceneActionDescription : jsstring)
    (quality : Quality) (response : Response) :
  truthy_opt apiKey = true ->
  service (stylizeRequest base64Data mimeType prompt influence
             characterDescription sceneActionDescription quality)
  = Resolved response ->
  generateStylizedImage apiKey service base64Data mimeType prompt influence
    characterDescription sceneActionDescription quality
  = {| sent := [stylizeRequest base64Data mimeType prompt influence
                  characterDescription sceneActionDescription quality];
       outcome := match conclude (scanResponse response) with
                  | Normal r => Returned r
                  | Raised message => Threw (stylizeCatch message)
                  end |}.
Proof.
  intros Hkey Hsvc. unfold generateStylizedImage, stylizeTry.
  rewrite Hkey, Hsvc. cbn [negb].
  destruct (conclude (scanResponse response)); reflexivity.
Qed.

Lemma stylize_rejected (apiKey : option jsstring) (service : Service)
    (base64Data mimeType prompt : jsstring) (influence : Z)
    (characterDescription sceneActionDescription : jsstring)
    (quality : Quality) (message : option jsstring) :
  truthy_opt apiKey = true ->
  service (stylizeRequest base64Data mimeType prompt influence
             characterDescription sceneActionDescription quality)
  = Rejected message ->
  generateStylizedImage apiKey service base64Data mimeType prompt influence
    characterDescription sceneActionDescription quality
  = {| sent := [stylizeRequest base64Data mimeType prompt influence
                  characterDescription sceneActionDescription quality];
       outcome := Threw (stylizeCatch message) |}.
Proof.
  intros Hkey Hsvc. unfold generateStylizedImage, stylizeTry.
  rewrite Hkey, Hsvc. reflexivity.
Qed.

(** C3, as the code has it: only the first candidate is inspected; over
    its parts, the chosen image is the last inline-image part and the
    accompanying text is the last text of a part that has no inline payload
    and a non-empty text (a part whose text is the empty string is passed
    over).  With exactly two inline-image parts in the first candidate, the
    chosen image, and the image [generateStylizedImage] returns, is the
    second one. *)
Theorem response_scan_last_wins
    (c : Candidate) (others : list Candidate) (ps : list Part) :
  scanResponse {| candidates := Some (c :: others) |}
  = scanResponse {| candidates := Some [c] |}
  /\ scanParts ps
     = (option_map dataUrl (last_opt (imageParts ps)),
        last_opt (textParts ps))
  /\ (forall (d1 d2 : InlineData) (rest : list (list Part))
             (apiKey : option jsstring) (service : Service)
             (base64Data mimeType prompt : jsstring) (influence : Z)
             (characterDescription sceneActionDescription : jsstring)
             (quality : Quality),
        imageParts ps = [d1; d2] ->
        truthy_opt apiKey = true ->
        service (stylizeRequest base64Data mimeType prompt influence
                   characterDescription sceneActionDescription quality)
        = Resolved (responseOf (ps :: rest)) ->
        fst (scanResponse (responseOf (ps :: rest))) = Some (dataUrl d2)
        /\ outcome (generateStylizedImage apiKey service base64Data mimeType
                      prompt influence characterDescription
                      sceneActionDescription quality)
           = Returned {| imageUrl := Some (dataUrl d2);
                         text := last_opt (textParts ps) |}).
Proof.
  split; [reflexivity|]. split; [apply scanParts_last|].
  intros d1 d2 rest apiKey service base64Data mimeType prompt influence
    characterDescription sceneActionDescription quality Himg Hkey Hsvc.
  split.
  - unfold scanResponse. rewrite scannedParts_responseOf, scanParts_last.
    rewrite Himg. reflexivity.
  - rewrite (stylize_resolved _ _ _ _ _ _ _ _ _ _ Hkey Hsvc).
    cbn [outcome]. unfold scanResponse.
    rewrite scannedParts_responseOf, conclude_scan, Himg. reflexivity.
Qed.

Lemma response_scan_last_wins_witness :
  let first := {| data := Some (lit "QUFB"); mimeType := Some (lit "image/png") |} in
  let second := {| data := Some (lit "QkJC"); mimeType := Some (lit "image/jpeg") |} in
  let ps := [ {| inlineData := Some first; part_text := None |};
              {| inlineData := None; part_text := Some (lit "Here it is.") |};
              {| inlineData := Some second; part_text := None |} ] in
  outcome (generateStylizedImage (Some (lit "k"))
             (fun _ => Resolved (responseOf [ps]))
             (lit "QUJD") (lit "image/png") (lit "Vintage") 50 [] [] standard)
  = Returned {| imageUrl := Some (lit "data:image/jpeg;base64,QkJC");
                text := Some (lit "Here it is.") |}.
Proof.
  intros first second ps.
  exact (proj2 (proj2 (proj2
           (response_scan_last_wins {| content := None |} [] ps))
           first second [] (Some (lit "k"))
           (fun _ => Resolved (responseOf [ps]))
           (lit "QUJD") (lit "image/png") (lit "Vintage") 50%Z [] [] standard
           eq_refl eq_refl eq_refl)).
Defined.

(** C3 as stated fails on a text part whose text is empty: it is the last
    text part of the response, yet the text recorded and returned is the
    one of the part before it. *)
Lemma empty_text_part_skipped :
  let image :=
    {| data := Some (lit "QUFB"); mimeType := Some (lit "image/png") |} in
  let ps := [ {| inlineData := Some image; part_text := None |};
              {| inlineData := None; part_text := Some (lit "one") |};
              {| inlineData := None; part_text := Some [] |} ] in
  last_opt (textFields ps) = Some []
  /\ snd (scanParts ps) = Some (lit "one")
  /\ outcome (generateStylizedImage (Some (lit "k"))
                (fun _ => Resolved (responseOf [ps]))
                (lit "QUJD") (lit "image/png") (lit "Vintage") 50 [] []
                standard)
     = Returned {| imageUrl := Some (lit "data:image/png;base64,QUFB");
                   text := Some (lit "one") |}.
Proof.
  vm_compute. repeat split.
Qed.

Lemma textParts_none (ps : list Part) :
  forallb (fun p => implb (carriesText p) (carriesImage p)) ps = true ->
  textParts ps = [].
Proof.
  induction ps as [|p ps IH]; [reflexivity|].
  cbn [forallb]. intros H. apply andb_prop in H as [Hp Hps].
  unfold textParts. cbn [flat_map]. fold (textParts ps). rewrite (IH Hps).
  unfold carriesText, carriesImage in Hp.
  destruct (inlineData p); [reflexivity|].
  destruct (part_text p) as [[|ch u]|]; try reflexivity.
  discriminate Hp.
Qed.

Lemma imageParts_some (ps : list Part) :
  existsb carriesImage ps = true ->
  exists d, last_opt (imageParts ps) = Some d.
Proof.
  induction ps as [|p ps IH]; [discriminate|].
  cbn [existsb]. unfold imageParts. cbn [flat_map]. fold (imageParts ps).
  unfold carriesImage at 1.
  destruct (inlineData p) as [d|].
  - intros _. cbn [app]. rewrite last_opt_cons.
    destruct (last_opt (imageParts ps)); eauto.
  - cbn [orb app]. exact IH.
Qed.

(** C10: a part that carries an inline payload contributes only its image,
    whatever text it also carries; hence, when every text in the first
    candidate sits on an image-carrying part, no text is recorded and any
    result [generateStylizedImage] returns has no accompanying text (and a
    result is returned as soon as one part carries an image). *)
Theorem image_part_text_ignored (ps : list Part) :
  (forall acc d t,
      scanPart acc {| inlineData := Some d; part_text := t |}
      = (Some (dataUrl d), snd acc))
  /\ (forallb (fun p => implb (carriesText p) (carriesImage p)) ps = true ->
      snd (scanParts ps) = None
      /\ forall (rest : list (list Part)) (apiKey : option jsstring)
                (service : Service) (base64Data mimeType prompt : jsstring)
                (influence : Z)
                (characterDescription sceneActionDescription : jsstring)
                (quality : Quality),
           truthy_opt apiKey = true ->
           service (stylizeRequest base64Data mimeType prompt influence
                      characterDescription sceneActionDescription quality)
           = Resolved (responseOf (ps :: rest)) ->
           let run := generateStylizedImage apiKey service base64Data
                        mimeType prompt influence characterDescription
                        sceneActionDescription quality in
           (forall r, outcome run = Returned r -> text r = None)
           /\ (existsb carriesImage ps = true ->
               exists url,
                 outcome run
                 = Returned {| imageUrl := Some url; text := None |})).
Proof.
  split; [reflexivity|].
  intros Hps. pose proof (textParts_none ps Hps) as Htxt.
  split.
  - rewrite scanParts_last, Htxt. reflexivity.
  - intros rest apiKey service base64Data mimeType prompt influence
      characterDescription sceneActionDescription quality Hkey Hsvc run.
    subst run. rewrite (stylize_resolved _ _ _ _ _ _ _ _ _ _ Hkey Hsvc).
    cbn [outcome]. unfold scanResponse.
    rewrite scannedParts_responseOf, conclude_scan, Htxt. cbn [last_opt].
    split.
    + intros r. destruct (last_opt (imageParts ps)); intros H;
        [injection H as <-; reflexivity | discriminate H].
    + intros Himg. destruct (imageParts_some ps Himg) as [d ->].
      eexists; reflexivity.
Qed.

Lemma image_part_text_ignored_witness :
  let d := {| data := Some (lit "QUFB"); mimeType := None |} in
  let ps := [ {| inlineData := Some d; part_text := Some (lit "caption") |} ] in
  exists url,
    outcome (generateStylizedImage (Some (lit "k"))
               (fun _ => Resolved (responseOf [ps]))
               (lit "QUJD") (lit "image/png") (lit "Vintage") 50 [] []
               standard)
    = Returned {| imageUrl := Some url; text := None |}.
Proof.
  intros d ps.
  exact (proj2 (proj2 (proj2 (image_part_text_ignored ps) eq_refl)
                  [] (Some (lit "k")) (fun _ => Resolved (responseOf [ps]))
                  (lit "QUJD") (lit "image/png") (lit "Vintage") 50%Z [] []
                  standard eq_refl eq_refl)
           eq_refl).
Defined.

(** ** Failures of [generateStylizedImage] *)

Lemma knownSignal_false (message : jsstring) :
  knownSignal message = false ->
  includes message entityNotFoundMarker = false
  /\ includes message (lit "403") = false
  /\ includes message (lit "API key") = false
  /\ includes message (lit "400") = false
  /\ includes message (lit "503") = false
  /\ includes message (lit "Overloaded") = false
  /\ includes message (lit "SAFETY") = false.
Proof.
  unfold knownSignal. intros H.
  repeat (apply orb_false_elim in H; destruct H as [H ?]).
  repeat split; assumption.
Qed.

(** A non-empty message without any signal leaves the handler as it came. *)
Lemma stylizeCatch_unclassified (c : code_unit) (s : jsstring) :
  knownSignal (c :: s) = false -> stylizeCatch (Some (c :: s)) = c :: s.
Proof.
  intros H. apply knownSignal_false in H.
  destruct H as (H1 & H2 & H3 & H4 & H5 & H6 & H7).
  unfold stylizeCatch. cbn [or_else].
  rewrite H1, H2, H3, H4, H5, H6, H7. reflexivity.
Qed.

Lemma noImage_scan (response : Response) :
  fst (scanResponse response) = None ->
  last_opt (imageParts (scannedParts response)) = None.
Proof.
  unfold scanResponse. rewrite scanParts_last. cbn [fst].
  destruct (last_opt (imageParts (scannedParts response)));
    [discriminate | reflexivity].
Qed.

(** What the code does when the scan finds no inline-image part: the call
    fails.  With a text part found, the error raised is "Model declined to
    generate image: " followed by that text, and it then passes through the
    handler of the call: the thrown message is exactly that one when it
    holds none of the handler's signals.  With neither image nor text found,
    the thrown message is the empty-response one. *)
Theorem no_image_failure
    (apiKey : option jsstring) (service : Service)
    (base64Data mimeType prompt : jsstring) (influence : Z)
    (characterDescription sceneActionDescription : jsstring)
    (quality : Quality) (response : Response) :
  truthy_opt apiKey = true ->
  service (stylizeRequest base64Data mimeType prompt influence
             characterDescription sceneActionDescription quality)
  = Resolved response ->
  fst (scanResponse response) = None ->
  let run := generateStylizedImage apiKey service base64Data mimeType prompt
               influence characterDescription sceneActionDescription
               quality in
  (forall t, snd (scanResponse response) = Some t ->
     outcome run = Threw (stylizeCatch (Some (modelDeclinedPrefix ++ t)))
     /\ (knownSignal (modelDeclinedPrefix ++ t) = false ->
         outcome run = Threw (modelDeclinedPrefix ++ t)))
  /\ (snd (scanResponse response) = None ->
      outcome run = Threw emptyResponseMessage).
Proof.
  intros Hkey Hsvc Hnone run. subst run.
  rewrite (stylize_resolved _ _ _ _ _ _ _ _ _ _ Hkey Hsvc). cbn [outcome].
  pose proof (noImage_scan response Hnone) as Himg.
  unfold scanResponse in *. rewrite conclude_scan, Himg.
  rewrite scanParts_last. cbn [snd].
  split.
  - intros t Ht. rewrite Ht. split; [reflexivity|].
    intros Hsig. f_equal.
    exact (stylizeCatch_unclassified _ _ Hsig).
  - intros Ht. rewrite Ht. reflexivity.
Qed.

Lemma no_image_failure_witness :
  let t := lit "I can only edit photos of landscapes." in
  let response :=
    responseOf [[ {| inlineData := None; part_text := Some t |} ]] in
  outcome (generateStylizedImage (Some (lit "k")) (fun _ => Resolved response)
             (lit "QUJD") (lit "image/png") (lit "Vintage") 50 [] [] standard)
  = Threw (lit "Model declined to generate image: I can only edit photos of landscapes.").
Proof.
  intros t response.
  exact (proj2 (proj1 (no_image_failure (Some (lit "k"))
                         (fun _ => Resolved response)
                         (lit "QUJD") (lit "image/png") (lit "Vintage") 50%Z
                         [] [] standard response eq_refl eq_refl eq_refl)
                  t eq_refl) eq_refl).
Defined.

(** C4: on a response with no image and the text part "Blocked: SAFETY
    policy.", the error built to carry that text is caught by the call's own
    handler and replaced by the fixed safety message, which does not carry
    the text. *)
Lemma model_declined_text_reclassified :
  let t := lit "Blocked: SAFETY policy." in
  let response :=
    responseOf [[ {| inlineData := None; part_text := Some t |} ]] in
  let run := generateStylizedImage (Some (lit "k"))
               (fun _ => Resolved response)
               (lit "QUJD") (lit "image/png") (lit "Vintage") 50 [] []
               standard in
  scanResponse response = (None, Some t)
  /\ outcome run = Threw safetyMessage
  /\ outcome run <> Threw (modelDeclinedPrefix ++ t)
  /\ includes safetyMessage t = false.
Proof.
  vm_compute. repeat split; discriminate.
Qed.

(** C5, as the code has it: the message examined is the error's message,
    or "An unknown error occurred." when the error has no message or an
    empty one.  A message with the entity-not-found marker yields the fixed
    entity-not-found message ahead of every other check (also when it holds
    "403"); otherwise "403" or "API key" yield the invalid-key message;
    otherwise "400" the invalid-request one; otherwise "503" or "Overloaded"
    the overloaded one; otherwise "SAFETY" the safety one; any other message
    is thrown unchanged. *)
Theorem transport_error_classification
    (apiKey : option jsstring) (service : Service)
    (base64Data mimeType prompt : jsstring) (influence : Z)
    (characterDescription sceneActionDescription : jsstring)
    (quality : Quality) (error_message : option jsstring) :
  truthy_opt apiKey = true ->
  service (stylizeRequest base64Data mimeType prompt influence
             characterDescription sceneActionDescription quality)
  = Rejected error_message ->
  let thrown :=
    outcome (generateStylizedImage apiKey service base64Data mimeType prompt
               influence characterDescription sceneActionDescription
               quality) in
  let message := or_else error_message unknownErrorMessage in
  (forall c s, error_message = Some (c :: s) -> message = c :: s)
  /\ (error_message = None \/ error_message = Some [] ->
      message = unknownErrorMessage /\ thrown = Threw unknownErrorMessage)
  /\ (includes message entityNotFoundMarker = true ->
      thrown = Threw entityNotFoundMessage)
  /\ (includes message entityNotFoundMarker = false ->
      (includes message (lit "403") || includes message (lit "API key")
       = true ->
       thrown = Threw invalidApiKeyMessage)
      /\ (includes message (lit "403") || includes message (lit "API key")
          = false ->
          (includes message (lit "400") = true ->
           thrown = Threw invalidRequestMessage)
          /\ (includes message (lit "400") = false ->
              (includes message (lit "503")
               || includes message (lit "Overloaded") = true ->
               thrown = Threw overloadedMessage)
              /\ (includes message (lit "503")
                  || includes message (lit "Overloaded") = false ->
                  (includes message (lit "SAFETY") = true ->
                   thrown = Threw safetyMessage)
                  /\ (includes message (lit "SAFETY") = false ->
                      thrown = Threw message)))))
  /\ (includes message entityNotFoundMarker = true ->
      includes message (lit "403") = true ->
      thrown = Threw entityNotFoundMessage).
Proof.
  intros Hkey Hsvc thrown message. subst thrown.
  rewrite (stylize_rejected _ _ _ _ _ _ _ _ _ _ Hkey Hsvc). cbn [outcome].
  unfold stylizeCatch. fold message.
  split; [intros c s ->; reflexivity|].
  split; [intros [-> | ->]; split; reflexivity|].
  split; [intros ->; reflexivity|].
  split; [|intros -> _; reflexivity].
  intros ->. split; [intros ->; reflexivity|].
  intros ->. split; [intros ->; reflexivity|].
  intros ->. split; [intros ->; reflexivity|].
  intros ->. split; intros ->; reflexivity.
Qed.

Lemma transport_error_classification_witness :
  outcome (generateStylizedImage (Some (lit "k"))
             (fun _ => Rejected
                (Some (lit "403: Requested entity was not found.")))
             (lit "QUJD") (lit "image/png") (lit "Vintage") 50 [] [] standard)
  = Threw entityNotFoundMessage.
Proof.
  exact (proj2 (proj2 (proj2 (proj2
           (transport_error_classification (Some (lit "k"))
              (fun _ => Rejected
                 (Some (lit "403: Requested entity was not found.")))
              (lit "QUJD") (lit "image/png") (lit "Vintage") 50%Z [] []
              standard
              (Some (lit "403: Requested entity was not found."))
              eq_refl eq_refl))))
           eq_refl eq_refl).
Defined.

(** C5 as stated fails on an error whose message is empty: it holds none
    of the signals, yet it is not thrown unchanged. *)
Lemma empty_message_replaced :
  let run := generateStylizedImage (Some (lit "k"))
               (fun _ => Rejected (Some []))
               (lit "QUJD") (lit "image/png") (lit "Vintage") 50 [] []
               standard in
  knownSignal [] = false
  /\ outcome run = Threw unknownErrorMessage
  /\ outcome run <> Threw [].
Proof.
  vm_compute. repeat split; discriminate.
Qed.

(** ** The missing credential *)

(** C7: without an API key (undefined or empty) both entry points fail with
    the missing-credential message and hand no request to the remote
    service. *)
Theorem missing_key_fails_before_any_call
    (apiKey : option jsstring) (service : Service)
    (base64Data mimeType prompt : jsstring) (influence : Z)
    (characterDescription sceneActionDescription : jsstring)
    (quality : Quality) :
  apiKey = None \/ apiKey = Some [] ->
  generateStylizedImage apiKey service base64Data mimeType prompt influence
    characterDescription sceneActionDescription quality
  = {| sent := []; outcome := Threw missingKeyMessage |}
  /\ removeBackground apiKey service base64Data mimeType
     = {| sent := []; outcome := Threw missingKeyMessage |}.
Proof.
  intros [-> | ->]; split; reflexivity.
Qed.

Lemma missing_key_fails_before_any_call_witness :
  sent (generateStylizedImage None echoService (lit "QUJD") (lit "image/png")
          (lit "Vintage") 50 [] [] standard) = []
  /\ removeBackground (Some []) echoService (lit "QUJD") (lit "image/png")
     = {| sent := []; outcome := Threw missingKeyMessage |}.
Proof.
  split.
  - exact (f_equal sent
             (proj1 (missing_key_fails_before_any_call None echoService
                       (lit "QUJD") (lit "image/png") (lit "Vintage") 50%Z
                       [] [] standard (or_introl eq_refl)))).
  - exact (proj2 (missing_key_fails_before_any_call (Some []) echoService
                    (lit "QUJD") (lit "image/png") (lit "Vintage") 50%Z
                    [] [] standard (or_intror eq_refl))).
Defined.

(** ** Failures of [removeBackground] *)

Lemma scanImage_fold (ps : list Part) (acc : option jsstring) :
  fold_left scanImage ps acc
  = match last_opt (imageParts ps) with
    | Some d => Some (dataUrl d)
    | None => acc
    end.
Proof.
  revert acc; induction ps as [|p ps IH]; intros acc; [reflexivity|].
  cbn [fold_left]. rewrite IH. unfold scanImage, imageParts.
  cbn [flat_map]. fold (imageParts ps).
  destruct (inlineData p) as [d|]; [|reflexivity].
  cbn [app]. rewrite last_opt_cons.
  destruct (last_opt (imageParts ps)); reflexivity.
Qed.

Lemma removeCatch_cases (error_message : option jsstring) :
  removeCatch error_message = entityNotFoundMessage
  \/ removeCatch error_message
     = removalWrapPrefix ++ to_string_opt error_message.
Proof.
  unfold removeCatch.
  destruct (truthy_opt error_message
            && includes (to_string_opt error_message) entityNotFoundMarker);
    [left | right]; reflexivity.
Qed.

(** Once the key is there, a failure of [removeBackground] is thrown
    either as the fixed entity-not-found message, when the error's message
    holds that marker, or as "Background removal failed: " followed by the
    error's message: so for a transport error with "403", "400", "503" or a
    safety signal and for a response without image.  The wrapped message is
    never one of the invalid-key, invalid-request, overloaded or safety
    messages. *)
Theorem remove_background_classification
    (apiKey : option jsstring) (service : Service)
    (base64Data mimeType : jsstring) :
  truthy_opt apiKey = true ->
  let run := removeBackground apiKey service base64Data mimeType in
  let request := removeRequest base64Data mimeType in
  (forall s, service request = Rejected (Some s) ->
     (includes s entityNotFoundMarker = true ->
      outcome run = Threw entityNotFoundMessage)
     /\ (includes s entityNotFoundMarker = false ->
         outcome run = Threw (removalWrapPrefix ++ s)))
  /\ (service request = Rejected None ->
      outcome run = Threw (removalWrapPrefix ++ lit "undefined"))
  /\ (forall response,
        service request = Resolved response ->
        last_opt (imageParts (scannedParts response)) = None ->
        outcome run = Threw (removalWrapPrefix ++ removalFailedMessage))
  /\ (forall thrown,
        outcome run = Threw thrown ->
        thrown = entityNotFoundMessage
        \/ exists wrapped, thrown = removalWrapPrefix ++ wrapped)
  /\ (forall wrapped,
        ~ In (removalWrapPrefix ++ wrapped)
             [invalidApiKeyMessage; invalidRequestMessage;
              overloadedMessage; safetyMessage]).
Proof.
  intros Hkey run request.
  assert (Hrun : run
    = let (requests, attempt) := removeTry service base64Data mimeType in
      match attempt with
      | Normal r => {| sent := requests; outcome := Returned r |}
      | Raised message =>
          {| sent := requests; outcome := Threw (removeCatch message) |}
      end).
  { subst run. unfold removeBackground. rewrite Hkey. reflexivity. }
  rewrite Hrun. clear Hrun. unfold removeTry. fold request.
  split; [|split; [|split; [|split]]].
  - intros s Hs. rewrite Hs. cbn [outcome]. unfold removeCatch.
    cbn [to_string_opt].
    split; intros Hin; rewrite Hin.
    + destruct s as [|c s]; [discriminate Hin | reflexivity].
    + rewrite andb_false_r. reflexivity.
  - intros Hs. rewrite Hs. reflexivity.
  - intros response Hs Himg. rewrite Hs, scanImage_fold, Himg. reflexivity.
  - intros thrown. destruct (service request) as [response | message].
    + destruct (negb (truthy_opt
                  (fold_left scanImage (scannedParts response) None)));
        cbn [outcome]; intros H; [|discriminate H].
      injection H as <-. right. eexists. reflexivity.
    + cbn [outcome]. intros H. injection H as <-.
      destruct (removeCatch_cases message) as [-> | ->];
        [left; reflexivity | right; eexists; reflexivity].
  - intros wrapped Hin. cbn [In] in Hin.
    destruct Hin as [H | [H | [H | [H | []]]]]; discriminate H.
Qed.

Lemma remove_background_classification_witness :
  outcome (removeBackground (Some (lit "k"))
             (fun _ => Rejected (Some (lit "403 Forbidden: SAFETY")))
             (lit "QUJD") (lit "image/png"))
  = Threw (lit "Background removal failed: 403 Forbidden: SAFETY").
Proof.
  exact (proj2 (proj1 (remove_background_classification (Some (lit "k"))
                         (fun _ => Rejected (Some (lit "403 Forbidden: SAFETY")))
                         (lit "QUJD") (lit "image/png") eq_refl)
                  (lit "403 Forbidden: SAFETY") eq_refl) eq_refl).
Defined.

Lemma remove_without_key (apiKey : option jsstring) (service : Service)
    (base64Data mimeType : jsstring) :
  truthy_opt apiKey = false ->
  removeBackground apiKey service base64Data mimeType
  = {| sent := []; outcome := Threw missingKeyMessage |}.
Proof.
  intros Hkey. unfold removeBackground. rewrite Hkey. reflexivity.
Qed.

(** C9, as the code has it: a failure of [removeBackground] is thrown in
    one of three ways.  Without a key, the missing-credential message is
    thrown as it is, before the [try] block: it is neither the
    entity-not-found message nor wrapped.  With a key, a transport error
    whose message holds the entity-not-found marker is thrown as the fixed
    entity-not-found message, and every other failure (a transport error
    with "403", "400", "503" or a safety signal, a response without image)
    is thrown as "Background removal failed: " followed by the error's
    message.  No failure is thrown as the invalid-key, invalid-request,
    overloaded or safety message. *)
Theorem remove_background_failures
    (apiKey : option jsstring) (service : Service)
    (base64Data mimeType : jsstring) :
  let run := removeBackground apiKey service base64Data mimeType in
  let request := removeRequest base64Data mimeType in
  (truthy_opt apiKey = false ->
   run = {| sent := []; outcome := Threw missingKeyMessage |})
  /\ (truthy_opt apiKey = true ->
      (forall s, service request = Rejected (Some s) ->
         (includes s entityNotFoundMarker = true ->
          outcome run = Threw entityNotFoundMessage)
         /\ (includes s entityNotFoundMarker = false ->
             outcome run = Threw (removalWrapPrefix ++ s)))
      /\ (service request = Rejected None ->
          outcome run = Threw (removalWrapPrefix ++ lit "undefined"))
      /\ (forall response,
            service request = Resolved response ->
            last_opt (imageParts (scannedParts response)) = None ->
            outcome run = Threw (removalWrapPrefix ++ removalFailedMessage)))
  /\ (forall thrown,
        outcome run = Threw thrown ->
        (truthy_opt apiKey = false /\ thrown = missingKeyMessage)
        \/ (truthy_opt apiKey = true
            /\ (thrown = entityNotFoundMessage
                \/ exists wrapped, thrown = removalWrapPrefix ++ wrapped)))
  /\ (forall thrown,
        outcome run = Threw thrown ->
        ~ In thrown [invalidApiKeyMessage; invalidRequestMessage;
                     overloadedMessage; safetyMessage])
  /\ missingKeyMessage <> entityNotFoundMessage
  /\ (forall wrapped, missingKeyMessage <> removalWrapPrefix ++ wrapped).
Proof.
  intros run request.
  assert (Hcases : forall thrown,
    outcome run = Threw thrown ->
    (truthy_opt apiKey = false /\ thrown = missingKeyMessage)
    \/ (truthy_opt apiKey = true
        /\ (thrown = entityNotFoundMessage
            \/ exists wrapped, thrown = removalWrapPrefix ++ wrapped))).
  { intros thrown Hthrown. destruct (truthy_opt apiKey) eqn:Hkey.
    - right. split; [reflexivity|].
      destruct (remove_background_classification apiKey service base64Data
                  mimeType Hkey) as (_ & _ & _ & Hshape & _).
      exact (Hshape thrown Hthrown).
    - left. split; [reflexivity|]. subst run.
      rewrite (remove_without_key _ _ _ _ Hkey) in Hthrown.
      injection Hthrown as <-. reflexivity. }
  split; [apply remove_without_key|].
  split.
  { intros Hkey.
    destruct (remove_background_classification apiKey service base64Data
                mimeType Hkey) as (H1 & H2 & H3 & _).
    split; [exact H1|]. split; [exact H2 | exact H3]. }
  split; [exact Hcases|].
  split.
  { intros thrown Hthrown Hin.
    destruct (Hcases thrown Hthrown)
      as [[_ ->] | [_ [-> | [wrapped ->]]]];
      cbn [In] in Hin;
      destruct Hin as [H | [H | [H | [H | []]]]]; discriminate H. }
  split; [discriminate|]. intros wrapped H. discriminate H.
Qed.

(** C9 as stated fails on the failure for a missing key: it is thrown, not
    as the entity-not-found message, and not wrapped. *)
Lemma missing_key_failure_not_wrapped :
  let run := removeBackground None echoService (lit "QUJD")
               (lit "image/png") in
  outcome run = Threw missingKeyMessage
  /\ missingKeyMessage <> entityNotFoundMessage
  /\ starts_with removalWrapPrefix missingKeyMessage = false.
Proof.
  vm_compute. repeat split; discriminate.
Qed.

(** ** Round trip of the image payload *)

(** C6: for a base64 payload submitted with mime type "image/png", either
    bare or behind a data-URL header that ends in "base64,", the payload
    transmitted is the bare payload; and when the stub service echoes the
    transmitted image back as an inline part, the call returns the image
    URL "data:image/png;base64," followed by that payload, with no text. *)
Theorem image_round_trip
    (apiKey : option jsstring) (header payload prompt : jsstring)
    (influence : Z) (characterDescription sceneActionDescription : jsstring)
    (quality : Quality) (base64Data : jsstring) :
  truthy_opt apiKey = true ->
  forallb base64_alphabet payload = true ->
  ~ In comma header ->
  base64Data = payload \/ base64Data = header ++ lit "base64," ++ payload ->
  let request := stylizeRequest base64Data (lit "image/png") prompt influence
                   characterDescription sceneActionDescription quality in
  req_data request = Some payload
  /\ req_mimeType request = lit "image/png"
  /\ generateStylizedImage apiKey echoService base64Data (lit "image/png")
       prompt influence characterDescription sceneActionDescription quality
     = {| sent := [request];
          outcome :=
            Returned {| imageUrl :=
                          Some (lit "data:image/png;base64," ++ payload);
                        text := None |} |}.
Proof.
  intros Hkey Hpayload Hheader Hinput request.
  pose proof (base64_no_comma payload Hpayload) as Hp.
  assert (Hclean : cleanBase64 base64Data = Some payload).
  { destruct Hinput as [-> | ->].
    - apply cleanBase64_plain; exact Hp.
    - apply cleanBase64_header; assumption. }
  split; [exact Hclean|]. split; [reflexivity|].
  rewrite (stylize_resolved apiKey echoService base64Data (lit "image/png")
             prompt influence characterDescription sceneActionDescription
             quality _ Hkey eq_refl).
  fold request. f_equal.
  unfold scanResponse. rewrite scannedParts_responseOf, conclude_scan.
  unfold request. cbn [stylizeRequest req_data req_mimeType].
  rewrite Hclean. reflexivity.
Qed.

Lemma image_round_trip_witness :
  outcome (generateStylizedImage (Some (lit "k")) echoService
             (lit "data:image/png;base64,QUJD") (lit "image/png")
             (lit "Vintage") 50 [] [] standard)
  = Returned {| imageUrl := Some (lit "data:image/png;base64,QUJD");
                text := None |}.
Proof.
  refine (f_equal outcome
            (proj2 (proj2
               (image_round_trip (Some (lit "k")) (lit "data:image/png;")
                  (lit "QUJD") (lit "Vintage") 50%Z [] [] standard
                  (lit "data:image/png;base64,QUJD")
                  eq_refl eq_refl _ (or_intror eq_refl))))).
  vm_compute. intuition discriminate.
Defined.

(** ** The history of generated images *)

Lemma keepLast4_length (newImage : GeneratedImage)
    (prev : list GeneratedImage) :
  List.length (App.keepLast4 newImage prev) <= 4.
Proof.
  unfold App.keepLast4. rewrite length_firstn. lia.
Qed.

Lemma historyAfter_length (prev news : list GeneratedImage) :
  List.length prev <= 4 -> List.length (App.historyAfter prev news) <= 4.
Proof.
  revert prev; induction news as [|n news IH]; intros prev H; [exact H|].
  cbn [App.historyAfter]. apply IH. apply keepLast4_length.
Qed.

(** A call that returns has found an image, so its URL is non-empty. *)
Lemma returned_has_image (apiKey : option jsstring) (service : Service)
    (base64Data mimeType prompt : jsstring) (influence : Z)
    (characterDescription sceneActionDescription : jsstring)
    (quality : Quality) (r : GenerationResult) :
  outcome (generateStylizedImage apiKey service base64Data mimeType prompt
             influence characterDescription sceneActionDescription quality)
  = Returned r ->
  exists c u, imageUrl r = Some (c :: u).
Proof.
  unfold generateStylizedImage, stylizeTry.
  destruct (negb (truthy_opt apiKey)); [discriminate|].
  destruct (service _) as [response | message]; [|discriminate].
  unfold conclude. destruct (scanResponse response) as [[[|c u]|] t];
    cbn [truthy_opt truthy negb].
  - destruct (truthy_opt t); cbn [outcome]; intros H; discriminate H.
  - cbn [outcome]. intros H. injection H as <-.
    exists c, u. reflexivity.
  - destruct (truthy_opt t); cbn [outcome]; intros H; discriminate H.
Qed.

(** C8: after any run of updates from a history of at most 4 entries, the
    history still has at most 4 entries, and one more successful generation
    leaves a history of at most 4 entries whose first entry is the new
    image, followed by the three newest earlier entries: the oldest entry
    is dropped when there were already 4.  A successful [handleGenerate]
    performs exactly this update. *)
Theorem history_bounded_newest_first
    (prev news : list GeneratedImage) :
  List.length prev <= 4 ->
  let before := App.historyAfter prev news in
  List.length before <= 4
  /\ (forall newImage,
        let after := App.keepLast4 newImage before in
        App.historyAfter prev (news ++ [newImage]) = after
        /\ List.length after <= 4
        /\ hd_error after = Some newImage
        /\ after = newImage :: firstn 3 before
        /\ (List.length before = 4 -> after = newImage :: removelast before)
        /\ (List.length before < 4 -> after = newImage :: before))
  /\ (forall apiKey service now_id now_ts st up r,
        App.generatedImages st = before ->
        App.uploadedImage st = Some up ->
        outcome (generateStylizedImage apiKey service (App.base64 up)
                   (App.up_mimeType up) (App.prompt st) (App.influence st)
                   (App.characterDescription st) (App.sceneAction st)
                   (App.quality st))
        = Returned r ->
        exists url,
          imageUrl r = Some url
          /\ App.generatedImages
               (fst (App.handleGenerate apiKey service now_id now_ts st))
             = App.keepLast4
                 (App.newImageOf now_id now_ts url (App.prompt st)) before
          /\ App.status
               (fst (App.handleGenerate apiKey service now_id now_ts st))
             = App.SUCCESS).
Proof.
  intros Hprev before.
  pose proof (historyAfter_length prev news Hprev) as Hbefore.
  fold before in Hbefore.
  split; [exact Hbefore|]. split.
  - intros newImage after.
    split.
    { subst after before. clear Hbefore Hprev. revert prev.
      induction news as [|n news IH]; intros prev; [reflexivity|].
      cbn [app App.historyAfter]. apply IH. }
    split; [apply keepLast4_length|].
    split; [reflexivity|]. split; [reflexivity|].
    subst after. unfold App.keepLast4.
    split; intros Hlen.
    + destruct before as [|a [|b [|c [|d [|e tl]]]]]; try discriminate Hlen.
      reflexivity.
    + destruct before as [|a [|b [|c [|d tl]]]]; try reflexivity.
      cbn [List.length] in Hlen. lia.
  - intros apiKey service now_id now_ts st up r Hst Hup Hret.
    destruct (returned_has_image _ _ _ _ _ _ _ _ _ _ Hret) as (c & u & Hurl).
    exists (c :: u). split; [exact Hurl|].
    unfold App.handleGenerate. rewrite Hup, Hret, Hurl. cbn [fst].
    cbn [App.generatedImages App.status]. rewrite Hst.
    split; reflexivity.
Qed.

Lemma history_bounded_newest_first_witness :
  let img n :=
    App.newImageOf n n (lit "data:image/png;base64,QUJD") (lit "Vintage") in
  App.keepLast4 (img 5%Z) [img 4%Z; img 3%Z; img 2%Z; img 1%Z]
  = [img 5%Z; img 4%Z; img 3%Z; img 2%Z].
Proof.
  intros img.
  exact (proj1 (proj2 (proj2 (proj2 (proj2
           (proj1 (proj2 (history_bounded_newest_first
                            [img 4%Z; img 3%Z; img 2%Z; img 1%Z] []
                            (le_n 4)))
              (img 5%Z))))))
           eq_refl).
Defined.

(** * Further properties of the service and of the handlers *)

(** ** The transmitted payload *)

Lemma starts_with_extend (sub b s : jsstring) :
  starts_with sub b = true -> starts_with sub (b ++ s) = true.
Proof.
  intros H. apply starts_with_app in H as [rest ->].
  rewrite <- app_assoc. apply starts_with_self.
Qed.

Lemma starts_with_nil (sub : jsstring) :
  sub <> [] -> starts_with sub [] = false.
Proof. destruct sub; [congruence | reflexivity]. Qed.

Lemma includes_occurrence (s sub : jsstring) :
  sub <> [] -> includes s sub = true ->
  exists a b, s = a ++ b /\ b <> [] /\ starts_with sub b = true.
Proof.
  intros Hsub. induction s as [|c s IH]; intros H.
  - simpl in H. rewrite (starts_with_nil sub Hsub) in H. discriminate H.
  - simpl in H. apply orb_prop in H as [H | H].
    + exists [], (c :: s). repeat split; [discriminate | exact H].
    + destruct (IH H) as (a & b & -> & Hb & Hm).
      exists (c :: a), b. repeat split; assumption.
Qed.

Lemma noMatchIn_includes (sep cur s : jsstring) :
  sep <> [] -> noMatchIn sep cur s -> includes (rev cur) sep = false.
Proof.
  intros Hsep Hq. destruct (includes (rev cur) sep) eqn:E; [|reflexivity].
  destruct (includes_occurrence _ _ Hsep E) as (a & b & Hab & Hb & Hm).
  pose proof (starts_with_extend sep b s Hm) as Hx.
  rewrite (Hq a b Hab Hb) in Hx. discriminate Hx.
Qed.

Lemma noMatchIn_nil (sep s : jsstring) : noMatchIn sep [] s.
Proof.
  intros a b Hab Hb. exfalso. apply Hb.
  destruct a; destruct b; simpl in Hab; congruence.
Qed.

Lemma noMatchIn_step (sep cur s : jsstring) (c : code_unit) :
  noMatchIn sep cur (c :: s) -> starts_with sep (c :: s) = false ->
  noMatchIn sep (c :: cur) s.
Proof.
  intros Hq Hc a b Hab Hb.
  destruct (exists_last Hb) as (b' & x & ->).
  cbn [rev] in Hab. rewrite app_assoc in Hab.
  apply app_inj_tail in Hab as [Hab ->].
  rewrite <- app_assoc. cbn [app].
  destruct b' as [|y b'].
  - exact Hc.
  - apply (Hq a (y :: b') Hab). discriminate.
Qed.

(** No piece of a split holds the separator. *)
Lemma split_from_pieces (sep s : jsstring) (skip : nat) (cur : jsstring) :
  sep <> [] ->
  match skip with
  | O => noMatchIn sep cur s
  | S _ => cur = []
  end ->
  Forall (fun piece => includes piece sep = false)
         (split_from sep s skip cur).
Proof.
  intros Hsep. revert skip cur.
  assert (Hstart : forall k s', match k with
                                | O => noMatchIn sep [] s'
                                | S _ => @nil code_unit = []
                                end).
  { intros [|k] s'; [apply noMatchIn_nil | reflexivity]. }
  induction s as [|c s IH]; intros skip cur Hinv.
  - cbn [split_from]. constructor; [|constructor].
    destruct skip.
    + exact (noMatchIn_includes sep cur [] Hsep Hinv).
    + subst cur. exact (starts_with_nil sep Hsep).
  - cbn [split_from]. destruct skip as [|k].
    + destruct (starts_with sep (c :: s)) eqn:E.
      * constructor.
        -- exact (noMatchIn_includes sep cur (c :: s) Hsep Hinv).
        -- apply IH. apply Hstart.
      * apply IH. apply noMatchIn_step; assumption.
    + subst cur. apply IH. apply Hstart.
Qed.

Lemma index_In {A} (l : list A) (i : nat) (x : A) :
  index l i = Some x -> In x l.
Proof. apply nth_error_In. Qed.

(** X1: whatever string is submitted, the image data put in the request is
    defined, holds no "base64," marker, is the submitted string itself when
    that holds no marker, and is left as it is by a second cleaning. *)
Theorem transmitted_payload_has_no_marker
    (base64Data mimeType prompt : jsstring) (influence : Z)
    (characterDescription sceneActionDescription : jsstring)
    (quality : Quality) :
  exists payload,
    req_data (stylizeRequest base64Data mimeType prompt influence
                characterDescription sceneActionDescription quality)
    = Some payload
    /\ req_data (removeRequest base64Data mimeType) = Some payload
    /\ includes payload (lit "base64,") = false
    /\ (includes base64Data (lit "base64,") = false -> payload = base64Data)
    /\ cleanBase64 payload = Some payload.
Proof.
  destruct (cleanBase64_defined base64Data) as [payload Hp].
  exists payload. cbn [stylizeRequest removeRequest req_data].
  assert (Hno : includes payload (lit "base64,") = false).
  { unfold cleanBase64 in Hp.
    destruct (includes base64Data (lit "base64,")) eqn:E.
    - apply index_In in Hp. unfold split in Hp.
      pose proof (split_from_pieces (lit "base64,") base64Data 0 []
                    ltac:(discriminate)
                    (noMatchIn_nil (lit "base64,") base64Data)) as Hall.
      rewrite Forall_forall in Hall. exact (Hall _ Hp).
    - injection Hp as <-. exact E. }
  repeat split; try assumption.
  - intros E. unfold cleanBase64 in Hp. rewrite E in Hp.
    injection Hp as <-. reflexivity.
  - unfold cleanBase64. rewrite Hno. reflexivity.
Qed.

(** X2: when the submitted string holds the marker twice, what is sent is
    the text between the first and the second marker: what precedes the
    first and what follows the second are both dropped. *)
Theorem second_marker_truncates_payload (header middle rest : jsstring) :
  ~ In comma header -> ~ In comma middle ->
  cleanBase64 (header ++ lit "base64," ++ middle ++ lit "base64," ++ rest)
  = Some middle.
Proof.
  intros Hh Hm. unfold cleanBase64.
  rewrite includes_after by apply includes_self.
  unfold split. rewrite (split_from_header header _ [] Hh).
  rewrite (split_from_header middle rest [] Hm). reflexivity.
Qed.

Lemma second_marker_truncates_payload_witness :
  cleanBase64 (lit "data:image/png;base64,QUJDbase64,REVG")
  = Some (lit "QUJD").
Proof.
  refine (second_marker_truncates_payload (lit "data:image/png;")
            (lit "QUJD") (lit "REVG") _ _);
    vm_compute; intuition discriminate.
Defined.

(** ** What the entry points send and return *)

Lemma remove_resolved (apiKey : option jsstring) (service : Service)
    (base64Data mimeType : jsstring) (response : Response) :
  truthy_opt apiKey = true ->
  service (removeRequest base64Data mimeType) = Resolved response ->
  removeBackground apiKey service base64Data mimeType
  = {| sent := [removeRequest base64Data mimeType];
       outcome :=
         match last_opt (imageParts (scannedParts response)) with
         | Some d => Returned {| imageUrl := Some (dataUrl d);
                                 text := None |}
         | None => Threw (removeCatch (Some removalFailedMessage))
         end |}.
Proof.
  intros Hkey Hsvc. unfold removeBackground, removeTry.
  rewrite Hkey, Hsvc, scanImage_fold. cbn [negb].
  destruct (last_opt (imageParts (scannedParts response))) as [d|].
  - cbn [truthy_opt]. rewrite dataUrl_truthy. reflexivity.
  - reflexivity.
Qed.

Lemma remove_rejected (apiKey : option jsstring) (service : Service)
    (base64Data mimeType : jsstring) (message : option jsstring) :
  truthy_opt apiKey = true ->
  service (removeRequest base64Data mimeType) = Rejected message ->
  removeBackground apiKey service base64Data mimeType
  = {| sent := [removeRequest base64Data mimeType];
       outcome := Threw (removeCatch message) |}.
Proof.
  intros Hkey Hsvc. unfold removeBackground, removeTry.
  rewrite Hkey, Hsvc. reflexivity.
Qed.

(** X3: with a key configured, each entry point hands exactly one request
    to the remote service, however the call ends (no retry, no second
    attempt).  For [generateStylizedImage] the high tier selects the
    "gemini-3-pro-image-preview" model with image size "2K" and the
    standard tier "gemini-2.5-flash-image" with no configuration; the
    instruction, image data and mime type do not depend on the tier.
    [removeBackground] always uses the standard model, its fixed
    instruction and no configuration. *)
Theorem one_request_per_call
    (apiKey : option jsstring) (service : Service)
    (base64Data mimeType prompt : jsstring) (influence : Z)
    (characterDescription sceneActionDescription : jsstring)
    (quality : Quality) :
  truthy_opt apiKey = true ->
  let request := stylizeRequest base64Data mimeType prompt influence
                   characterDescription sceneActionDescription quality in
  sent (generateStylizedImage apiKey service base64Data mimeType prompt
          influence characterDescription sceneActionDescription quality)
  = [request]
  /\ sent (removeBackground apiKey service base64Data mimeType)
     = [removeRequest base64Data mimeType]
  /\ (req_model request, req_imageSize request)
     = match quality with
       | high => (lit "gemini-3-pro-image-preview", Some (lit "2K"))
       | standard => (lit "gemini-2.5-flash-image", None)
       end
  /\ (forall quality',
        let request' := stylizeRequest base64Data mimeType prompt influence
                          characterDescription sceneActionDescription
                          quality' in
        (req_text request', req_data request', req_mimeType request')
        = (req_text request, req_data request, req_mimeType request))
  /\ (req_model (removeRequest base64Data mimeType),
      req_text (removeRequest base64Data mimeType),
      req_imageSize (removeRequest base64Data mimeType))
     = (lit "gemini-2.5-flash-image", removeBackgroundPrompt, None).
Proof.
  intros Hkey request. subst request.
  split; [|split; [|split; [|split]]].
  - destruct (service (stylizeRequest base64Data mimeType prompt influence
                         characterDescription sceneActionDescription
                         quality)) as [response | message] eqn:E.
    + rewrite (stylize_resolved _ _ _ _ _ _ _ _ _ _ Hkey E). reflexivity.
    + rewrite (stylize_rejected _ _ _ _ _ _ _ _ _ _ Hkey E). reflexivity.
  - destruct (service (removeRequest base64Data mimeType))
      as [response | message] eqn:E.
    + rewrite (remove_resolved _ _ _ _ _ Hkey E). reflexivity.
    + rewrite (remove_rejected _ _ _ _ _ Hkey E). reflexivity.
  - destruct quality; reflexivity.
  - intros quality'. reflexivity.
  - reflexivity.
Qed.

Lemma one_request_per_call_witness :
  List.length
    (sent (generateStylizedImage (Some (lit "k"))
             (fun _ => Rejected (Some (lit "503 Service Unavailable")))
             (lit "QUJD") (lit "image/png") (lit "Vintage") 50 [] [] high))
  = 1.
Proof.
  exact (f_equal (@List.length Request)
           (proj1 (one_request_per_call (Some (lit "k"))
                     (fun _ => Rejected (Some (lit "503 Service Unavailable")))
                     (lit "QUJD") (lit "image/png") (lit "Vintage") 50%Z
                     [] [] high eq_refl))).
Defined.

Lemma or_else_truthy (o : option jsstring) (dflt : jsstring) :
  truthy dflt = true -> truthy (or_else o dflt) = true.
Proof.
  intros H. destruct o as [[|c s]|]; [exact H | reflexivity | exact H].
Qed.

Lemma stylizeCatch_truthy (error_message : option jsstring) :
  truthy (stylizeCatch error_message) = true.
Proof.
  unfold stylizeCatch.
  set (message := or_else error_message unknownErrorMessage).
  assert (Hm : truthy message = true)
    by (apply or_else_truthy; reflexivity).
  destruct (includes message entityNotFoundMarker); [reflexivity|].
  destruct (includes message (lit "403") || includes message (lit "API key"));
    [reflexivity|].
  destruct (includes message (lit "400")); [reflexivity|].
  destruct (includes message (lit "503")
            || includes message (lit "Overloaded")); [reflexivity|].
  destruct (includes message (lit "SAFETY")); [reflexivity | exact Hm].
Qed.

Lemma removeCatch_truthy (error_message : option jsstring) :
  truthy (removeCatch error_message) = true.
Proof.
  destruct (removeCatch_cases error_message) as [-> | ->]; reflexivity.
Qed.

(** X4: an error thrown by either entry point never has an empty message,
    whatever the key, the service and the inputs. *)
Theorem thrown_messages_are_never_empty
    (apiKey : option jsstring) (service : Service)
    (base64Data mimeType prompt : jsstring) (influence : Z)
    (characterDescription sceneActionDescription : jsstring)
    (quality : Quality) :
  (forall message,
     outcome (generateStylizedImage apiKey service base64Data mimeType
                prompt influence characterDescription
                sceneActionDescription quality)
     = Threw message ->
     truthy message = true)
  /\ (forall message,
        outcome (removeBackground apiKey service base64Data mimeType)
        = Threw message ->
        truthy message = true).
Proof.
  split; intros message.
  - unfold generateStylizedImage.
    destruct (stylizeTry apiKey service base64Data mimeType prompt influence
                characterDescription sceneActionDescription quality)
      as [requests [r | m]]; cbn [outcome]; intros H; [discriminate H|].
    injection H as <-. apply stylizeCatch_truthy.
  - unfold removeBackground.
    destruct (negb (truthy_opt apiKey)); cbn [outcome].
    + intros H. injection H as <-. reflexivity.
    + destruct (removeTry service base64Data mimeType)
        as [requests [r | m]]; cbn [outcome]; intros H; [discriminate H|].
      injection H as <-. apply removeCatch_truthy.
Qed.

(** X5: [generateStylizedImage] returns a result only when a key is
    configured, the service resolved and the first candidate of its
    response holds an inline part; the result is then the data URL of the
    last such part together with the last recorded text. *)
Theorem stylize_returns_only_an_image
    (apiKey : option jsstring) (service : Service)
    (base64Data mimeType prompt : jsstring) (influence : Z)
    (characterDescription sceneActionDescription : jsstring)
    (quality : Quality) (r : GenerationResult) :
  outcome (generateStylizedImage apiKey service base64Data mimeType prompt
             influence characterDescription sceneActionDescription quality)
  = Returned r ->
  truthy_opt apiKey = true
  /\ exists response d,
       service (stylizeRequest base64Data mimeType prompt influence
                  characterDescription sceneActionDescription quality)
       = Resolved response
       /\ last_opt (imageParts (scannedParts response)) = Some d
       /\ r = {| imageUrl := Some (dataUrl d);
                 text := last_opt (textParts (scannedParts response)) |}.
Proof.
  destruct (truthy_opt apiKey) eqn:Hkey.
  - destruct (service (stylizeRequest base64Data mimeType prompt influence
                         characterDescription sceneActionDescription
                         quality)) as [response | message] eqn:E.
    + rewrite (stylize_resolved _ _ _ _ _ _ _ _ _ _ Hkey E). cbn [outcome].
      unfold scanResponse. rewrite conclude_scan.
      destruct (last_opt (imageParts (scannedParts response))) as [d|] eqn:Ed.
      * intros H. injection H as <-. split; [reflexivity|].
        exists response, d. repeat split. exact Ed.
      * destruct (last_opt (textParts (scannedParts response)));
          intros H; discriminate H.
    + rewrite (stylize_rejected _ _ _ _ _ _ _ _ _ _ Hkey E). cbn [outcome].
      intros H; discriminate H.
  - unfold generateStylizedImage, stylizeTry. rewrite Hkey. cbn [negb outcome].
    intros H; discriminate H.
Qed.

Lemma stylize_returns_only_an_image_witness :
  exists response d,
    echoService (stylizeRequest (lit "QUJD") (lit "image/png") (lit "Vintage")
                   50 [] [] standard)
    = Resolved response
    /\ last_opt (imageParts (scannedParts response)) = Some d
    /\ {| imageUrl := Some (lit "data:image/png;base64,QUJD"); text := None |}
       = {| imageUrl := Some (dataUrl d);
            text := last_opt (textParts (scannedParts response)) |}.
Proof.
  exact (proj2 (stylize_returns_only_an_image (Some (lit "k")) echoService
                  (lit "QUJD") (lit "image/png") (lit "Vintage") 50%Z [] []
                  standard
                  {| imageUrl := Some (lit "data:image/png;base64,QUJD");
                     text := None |}
                  eq_refl)).
Defined.

(** X6: with a key configured, [removeBackground] returns exactly when the
    service resolved with a first candidate that holds an inline part; the
    result is the data URL of the last such part, and it never carries a
    text, whatever text parts the response holds. *)
Theorem remove_background_returns_last_image
    (apiKey : option jsstring) (service : Service)
    (base64Data mimeType : jsstring) :
  truthy_opt apiKey = true ->
  let run := removeBackground apiKey service base64Data mimeType in
  (forall response d,
     service (removeRequest base64Data mimeType) = Resolved response ->
     last_opt (imageParts (scannedParts response)) = Some d ->
     outcome run = Returned {| imageUrl := Some (dataUrl d); text := None |})
  /\ (forall r,
        outcome run = Returned r ->
        exists response d,
          service (removeRequest base64Data mimeType) = Resolved response
          /\ last_opt (imageParts (scannedParts response)) = Some d
          /\ r = {| imageUrl := Some (dataUrl d); text := None |}).
Proof.
  intros Hkey run. subst run. split.
  - intros response d Hsvc Hd.
    rewrite (remove_resolved _ _ _ _ _ Hkey Hsvc), Hd. reflexivity.
  - intros r.
    destruct (service (removeRequest base64Data mimeType))
      as [response | message] eqn:E.
    + rewrite (remove_resolved _ _ _ _ _ Hkey E). cbn [outcome].
      destruct (last_opt (imageParts (scannedParts response))) as [d|] eqn:Ed;
        intros H; [|discriminate H].
      injection H as <-. exists response, d. repeat split. exact Ed.
    + rewrite (remove_rejected _ _ _ _ _ Hkey E). cbn [outcome].
      intros H; discriminate H.
Qed.

Lemma remove_background_returns_last_image_witness :
  let first := {| data := Some (lit "QUFB"); mimeType := Some (lit "image/png") |} in
  let second := {| data := Some (lit "QkJC"); mimeType := Some (lit "image/jpeg") |} in
  let ps := [ {| inlineData := Some first; part_text := None |};
              {| inlineData := Some second; part_text := None |};
              {| inlineData := None; part_text := Some (lit "Done.") |} ] in
  outcome (removeBackground (Some (lit "k"))
             (fun _ => Resolved (responseOf [ps]))
             (lit "QUJD") (lit "image/png"))
  = Returned {| imageUrl := Some (lit "data:image/jpeg;base64,QkJC");
                text := None |}.
Proof.
  intros first second ps.
  exact (proj1 (remove_background_returns_last_image (Some (lit "k"))
                  (fun _ => Resolved (responseOf [ps]))
                  (lit "QUJD") (lit "image/png") eq_refl)
           (responseOf [ps]) second eq_refl eq_refl).
Defined.

(** X7: the URL both entry points return for the chosen inline part is
    "data:", the declared mime type or "image/png" when none or an empty
    one is declared, ";base64,", and the part's data or the text
    "undefined" when it has none.  So a part without mime type is reported
    as "image/png", a part without data still gives a result, whose URL
    ends in "undefined", and a part with neither gives
    "data:image/png;base64,undefined". *)
Theorem inline_part_defaults
    (apiKey : option jsstring) (response : Response) (d : InlineData)
    (base64Data inputType prompt : jsstring) (influence : Z)
    (characterDescription sceneActionDescription : jsstring)
    (quality : Quality) :
  truthy_opt apiKey = true ->
  last_opt (imageParts (scannedParts response)) = Some d ->
  let stylized :=
    outcome (generateStylizedImage apiKey (fun _ => Resolved response)
               base64Data inputType prompt influence characterDescription
               sceneActionDescription quality) in
  let removed :=
    outcome (removeBackground apiKey (fun _ => Resolved response)
               base64Data inputType) in
  let mime := match mimeType d with
              | Some (c :: m) => c :: m
              | Some [] | None => lit "image/png"
              end in
  let payload := match data d with
                 | Some p => p
                 | None => lit "undefined"
                 end in
  stylized
  = Returned {| imageUrl :=
                  Some (lit "data:" ++ mime ++ lit ";base64," ++ payload);
                text := last_opt (textParts (scannedParts response)) |}
  /\ removed
     = Returned {| imageUrl :=
                     Some (lit "data:" ++ mime ++ lit ";base64," ++ payload);
                   text := None |}
  /\ (mimeType d = None \/ mimeType d = Some [] ->
      forall p, data d = Some p ->
        removed
        = Returned {| imageUrl := Some (lit "data:image/png;base64," ++ p);
                      text := None |})
  /\ (forall c m, mimeType d = Some (c :: m) -> data d = None ->
        removed
        = Returned {| imageUrl :=
                        Some (lit "data:" ++ (c :: m)
                                ++ lit ";base64,undefined");
                      text := None |})
  /\ (mimeType d = None \/ mimeType d = Some [] -> data d = None ->
      stylized
      = Returned {| imageUrl := Some (lit "data:image/png;base64,undefined");
                    text := last_opt (textParts (scannedParts response)) |}
      /\ removed
         = Returned {| imageUrl :=
                         Some (lit "data:image/png;base64,undefined");
                       text := None |}).
Proof.
  intros Hkey Hd stylized removed mime payload.
  subst stylized removed mime payload.
  rewrite (stylize_resolved apiKey (fun _ => Resolved response) base64Data
             inputType prompt influence characterDescription
             sceneActionDescription quality response Hkey eq_refl).
  rewrite (remove_resolved apiKey (fun _ => Resolved response) base64Data
             inputType response Hkey eq_refl).
  cbn [outcome]. unfold scanResponse. rewrite conclude_scan, Hd.
  unfold dataUrl.
  split; [|split; [|split; [|split]]].
  - destruct (mimeType d) as [[|c m]|]; destruct (data d); reflexivity.
  - destruct (mimeType d) as [[|c m]|]; destruct (data d); reflexivity.
  - intros Hm p Hp. rewrite Hp. destruct Hm as [-> | ->]; reflexivity.
  - intros c m Hm Hp. rewrite Hm, Hp. reflexivity.
  - intros Hm Hp. rewrite Hp.
    destruct Hm as [-> | ->]; split; reflexivity.
Qed.

Lemma inline_part_defaults_witness :
  let d := {| data := None; mimeType := None |} in
  outcome (removeBackground (Some (lit "k"))
             (fun _ => Resolved
                (responseOf [[ {| inlineData := Some d; part_text := None |} ]]))
             (lit "QUJD") (lit "image/jpeg"))
  = Returned {| imageUrl := Some (lit "data:image/png;base64,undefined");
                text := None |}.
Proof.
  intros d.
  exact (proj2 (proj2 (proj2 (proj2 (proj2
           (inline_part_defaults (Some (lit "k"))
              (responseOf [[ {| inlineData := Some d; part_text := None |} ]])
              d (lit "QUJD") (lit "image/jpeg") (lit "Vintage")
              50%Z [] [] standard eq_refl eq_refl))))
           (or_introl eq_refl) eq_refl)).
Defined.

(** ** Guidance and instruction outside the usual inputs *)

(** X8: the guidance is defined for every integer, not only for the
    slider's range: it is always one of the four sentences, a negative
    influence selects the "loose reference" sentence and an influence above
    100 the "strictly adhere" sentence. *)
Theorem guidance_outside_slider_range (influence : Z) :
  In (guidance influence)
     [ignoreSentence; looseSentence; maintainSentence; strictSentence]
  /\ ((influence < 0)%Z -> guidance influence = looseSentence)
  /\ ((100 < influence)%Z -> guidance influence = strictSentence).
Proof.
  unfold guidance.
  destruct (Z.eqb_spec influence 0) as [E0 | E0];
    destruct (Z.ltb_spec influence 30) as [E30 | E30];
    destruct (Z.ltb_spec influence 70) as [E70 | E70];
    (split; [cbn [In]; tauto |]); split; intros H;
    first [reflexivity | lia].
Qed.



(** ** Stability of the classification *)

(** X10: the message the handler of [generateStylizedImage] throws is left
    unchanged by a second pass through the handler; none of its fixed
    messages is itself re-classified. *)
Theorem classification_is_stable (error_message : option jsstring) :
  stylizeCatch (Some (stylizeCatch error_message))
  = stylizeCatch error_message.
Proof.
  unfold stylizeCatch at 2 3.
  set (message := or_else error_message unknownErrorMessage).
  assert (Hm : truthy message = true)
    by (apply or_else_truthy; reflexivity).
  destruct (includes message entityNotFoundMarker) eqn:E1; [reflexivity|].
  destruct (includes message (lit "403") || includes message (lit "API key"))
    eqn:E2; [reflexivity|].
  destruct (includes message (lit "400")) eqn:E3; [reflexivity|].
  destruct (includes message (lit "503")
            || includes message (lit "Overloaded")) eqn:E4; [reflexivity|].
  destruct (includes message (lit "SAFETY")) eqn:E5; [reflexivity|].
  apply orb_false_elim in E2 as [E2 E2'].
  apply orb_false_elim in E4 as [E4 E4'].
  destruct message as [|c s]; [discriminate Hm|].
  apply stylizeCatch_unclassified. unfold knownSignal.
  rewrite E1, E2, E2', E3, E4, E4', E5. reflexivity.
Qed.

(** ** Reading a data URL back ([handleBackgroundRemoval]) *)

Lemma split_single (c : code_unit) (s cur : jsstring) :
  split_from [c] s 0 cur
  = (rev cur ++ before c s)
      :: match after c s with
         | Some rest => split_from [c] rest 0 []
         | None => []
         end.
Proof.
  revert cur; induction s as [|x s IH]; intros cur.
  - cbn. rewrite app_nil_r. reflexivity.
  - cbn [split_from starts_with before after List.length pred].
    destruct (N.eqb c x); cbn [andb].
    + rewrite app_nil_r. reflexivity.
    + rewrite IH. cbn [rev]. rewrite <- app_assoc. reflexivity.
Qed.

Lemma split_single_head (c : code_unit) (s : jsstring) :
  index (split s [c]) 0 = Some (before c s).
Proof. unfold split. rewrite split_single. reflexivity. Qed.

Lemma split_single_second (c : code_unit) (s : jsstring) :
  index (split s [c]) 1 = option_map (before c) (after c s).
Proof.
  unfold split. rewrite split_single. cbn [index nth_error rev app].
  destruct (after c s) as [rest|]; [|reflexivity].
  rewrite split_single. reflexivity.
Qed.

Lemma before_app (c : code_unit) (pre s : jsstring) :
  ~ In c pre -> before c (pre ++ s) = pre ++ before c s.
Proof.
  induction pre as [|x pre IH]; intros H; [reflexivity|].
  cbn [app before]. destruct (N.eqb_spec c x) as [-> | _].
  - exfalso; apply H; left; reflexivity.
  - rewrite IH by (intros Hin; apply H; right; exact Hin). reflexivity.
Qed.

Lemma after_app (c : code_unit) (pre s : jsstring) :
  ~ In c pre -> after c (pre ++ s) = after c s.
Proof.
  induction pre as [|x pre IH]; intros H; [reflexivity|].
  cbn [app after]. destruct (N.eqb_spec c x) as [-> | _].
  - exfalso; apply H; left; reflexivity.
  - apply IH. intros Hin; apply H; right; exact Hin.
Qed.

Lemma before_absent (c : code_unit) (s : jsstring) :
  ~ In c s -> before c s = s.
Proof.
  intros H. rewrite <- (app_nil_r s) at 1.
  rewrite (before_app c s [] H). apply app_nil_r.
Qed.

Lemma after_present (c : code_unit) (s : jsstring) :
  In c s -> exists rest, after c s = Some rest.
Proof.
  induction s as [|x s IH]; intros H; [destruct H|].
  cbn [after]. destruct (N.eqb_spec c x) as [-> | Hne]; [eauto|].
  apply IH. destruct H as [H | H]; [congruence | exact H].
Qed.

(** What the handler reads off any URL that starts with "data:". *)
Lemma parseDataUrl_data (body : jsstring) :
  Handlers.parseDataUrl (lit "data:" ++ body)
  = Handlers.ParsedAs
      (option_map (before comma) (after comma body))
      (Some (before semicolon (before colon (before comma body)))).
Proof.
  unfold Handlers.parseDataUrl.
  change (lit ",") with [comma]. change (lit ":") with [colon].
  change (lit ";") with [semicolon].
  rewrite split_single_head, split_single_second.
  change (before comma (lit "data:" ++ body))
    with (lit "data:" ++ before comma body).
  change (after comma (lit "data:" ++ body)) with (after comma body).
  rewrite split_single_second.
  change (after colon (lit "data:" ++ before comma body))
    with (Some (before comma body)).
  cbn [option_map]. rewrite split_single_head. reflexivity.
Qed.

Lemma read_back_payload (mime payload : jsstring) :
  ~ In comma mime -> ~ In comma payload ->
  option_map (before comma)
    (after comma (mime ++ lit ";base64," ++ payload))
  = Some payload.
Proof.
  intros Hc Hp. rewrite (after_app comma mime _ Hc).
  change (after comma (lit ";base64," ++ payload)) with (Some payload).
  cbn [option_map]. rewrite (before_absent comma payload Hp). reflexivity.
Qed.

Lemma read_back_mime (mime payload : jsstring) :
  ~ In comma mime -> ~ In colon mime -> ~ In semicolon mime ->
  before semicolon
    (before colon (before comma (mime ++ lit ";base64," ++ payload)))
  = mime.
Proof.
  intros Hc Hk Hs. rewrite (before_app comma mime _ Hc).
  change (before comma (lit ";base64," ++ payload)) with (lit ";base64").
  rewrite (before_app colon mime _ Hk).
  change (before colon (lit ";base64")) with (lit ";base64").
  rewrite (before_app semicolon mime _ Hs).
  change (before semicolon (lit ";base64")) with (@nil code_unit).
  apply app_nil_r.
Qed.

(** X11: round trip of the data URL: from "data:<mime>;base64,<payload>",
    with a mime type free of comma, colon and semicolon and a payload free
    of comma, the handler reads back exactly that payload and that mime
    type; a payload holding a comma is read back only up to that comma. *)
Theorem data_url_parse_round_trip (mime payload : jsstring) :
  ~ In comma mime -> ~ In colon mime -> ~ In semicolon mime ->
  Handlers.parseDataUrl (lit "data:" ++ mime ++ lit ";base64," ++ payload)
  = Handlers.ParsedAs (Some (before comma payload)) (Some mime)
  /\ (~ In comma payload ->
      Handlers.parseDataUrl (lit "data:" ++ mime ++ lit ";base64," ++ payload)
      = Handlers.ParsedAs (Some payload) (Some mime)).
Proof.
  intros Hc Hk Hs. rewrite parseDataUrl_data.
  rewrite (read_back_mime mime payload Hc Hk Hs).
  rewrite (after_app comma mime _ Hc).
  change (after comma (lit ";base64," ++ payload)) with (Some payload).
  cbn [option_map]. split; [reflexivity|].
  intros Hp. rewrite (before_absent comma payload Hp). reflexivity.
Qed.

Lemma data_url_parse_round_trip_witness :
  Handlers.parseDataUrl (lit "data:image/png;base64,QUJD")
  = Handlers.ParsedAs (Some (lit "QUJD")) (Some (lit "image/png")).
Proof.
  refine (proj2 (data_url_parse_round_trip (lit "image/png") (lit "QUJD")
                   _ _ _) _);
    vm_compute; intuition discriminate.
Defined.

(** Reading a URL built from an inline part never raises: the base64 data
    and the mime type read back are both defined. *)
Lemma parse_of_dataUrl_defined (d : InlineData) :
  exists base64Data mime,
    Handlers.parseDataUrl (dataUrl d)
    = Handlers.ParsedAs (Some base64Data) (Some mime).
Proof.
  unfold dataUrl. rewrite parseDataUrl_data.
  destruct (after_present comma
              (or_else (mimeType d) (lit "image/png")
                 ++ lit ";base64," ++ to_string_opt (data d)))
    as [rest Hrest].
  { apply in_or_app; right. apply in_or_app; left.
    vm_compute. tauto. }
  rewrite Hrest. eexists; eexists; reflexivity.
Qed.

(** ** The handlers *)

Lemma remove_returned_shape (apiKey : option jsstring) (service : Service)
    (base64Data mimeType : jsstring) (r : GenerationResult) :
  outcome (removeBackground apiKey service base64Data mimeType) = Returned r ->
  exists d, r = {| imageUrl := Some (dataUrl d); text := None |}.
Proof.
  unfold removeBackground, removeTry.
  destruct (negb (truthy_opt apiKey)); cbn [outcome];
    [intros H; discriminate H|].
  destruct (service (removeRequest base64Data mimeType))
    as [response | message]; [|intros H; discriminate H].
  rewrite scanImage_fold.
  destruct (last_opt (imageParts (scannedParts response))) as [d|].
  - cbn [truthy_opt]. rewrite dataUrl_truthy. cbn [negb outcome].
    intros H. injection H as <-. exists d. reflexivity.
  - cbn [truthy_opt negb outcome]. intros H; discriminate H.
Qed.

Lemma remove_threw_truthy (apiKey : option jsstring) (service : Service)
    (base64Data mimeType message : jsstring) :
  outcome (removeBackground apiKey service base64Data mimeType)
  = Threw message ->
  truthy message = true.
Proof.
  unfold removeBackground.
  destruct (negb (truthy_opt apiKey)); cbn [outcome].
  - intros H. injection H as <-. reflexivity.
  - destruct (removeTry service base64Data mimeType)
      as [requests [r | m]]; cbn [outcome]; intros H; [discriminate H|].
    injection H as <-. apply removeCatch_truthy.
Qed.

Lemma stylize_threw_truthy (apiKey : option jsstring) (service : Service)
    (base64Data mimeType prompt : jsstring) (influence : Z)
    (characterDescription sceneActionDescription : jsstring)
    (quality : Quality) (message : jsstring) :
  outcome (generateStylizedImage apiKey service base64Data mimeType prompt
             influence characterDescription sceneActionDescription quality)
  = Threw message ->
  truthy message = true.
Proof.
  unfold generateStylizedImage.
  destruct (stylizeTry apiKey service base64Data mimeType prompt influence
              characterDescription sceneActionDescription quality)
    as [requests [r | m]]; cbn [outcome]; intros H; [discriminate H|].
  injection H as <-. apply stylizeCatch_truthy.
Qed.

Lemma or_else_some_truthy (message dflt : jsstring) :
  truthy message = true -> or_else (Some message) dflt = message.
Proof. destruct message; [discriminate | reflexivity]. Qed.

(** X12: with an image uploaded, [handleBackgroundRemoval] ends in one of
    two ways, whatever the service does: either [removeBackground] returned
    and the upload is replaced by the returned URL with base64 data and
    mime type both defined, status IDLE and no error (reading the URL never
    raises); or [removeBackground] threw, and the upload is kept, the
    status is ERROR and the error shown is exactly the thrown message.  The
    requests are those of [removeBackground]. *)
Theorem background_removal_ends
    (apiKey : option jsstring) (service : Service)
    (typeErrorMessage : jsstring) (st : App.State) (up : App.UploadedFile) :
  App.uploadedImage st = Some up ->
  let run := removeBackground apiKey service (App.base64 up)
               (App.up_mimeType up) in
  let ended := Handlers.handleBackgroundRemoval apiKey service
                 typeErrorMessage st in
  (exists d b m,
     outcome run = Returned {| imageUrl := Some (dataUrl d); text := None |}
     /\ ended
        = {| Handlers.end_status := App.IDLE;
             Handlers.end_uploaded :=
               Some {| Handlers.raw_previewUrl := dataUrl d;
                       Handlers.raw_base64 := Some b;
                       Handlers.raw_mimeType := Some m |};
             Handlers.end_error := None;
             Handlers.end_sent := sent run |})
  \/ (exists message,
        outcome run = Threw message
        /\ ended
           = {| Handlers.end_status := App.ERROR;
                Handlers.end_uploaded := Some (Handlers.rawOf up);
                Handlers.end_error := Some message;
                Handlers.end_sent := sent run |}).
Proof.
  intros Hup run ended. subst ended.
  unfold Handlers.handleBackgroundRemoval. rewrite Hup. fold run.
  destruct (outcome run) as [r | message] eqn:E.
  - left. destruct (remove_returned_shape _ _ _ _ _ E) as [d ->].
    destruct (parse_of_dataUrl_defined d) as (b & m & Hparse).
    exists d, b, m. split; [reflexivity|].
    cbn [imageUrl]. pose proof (dataUrl_truthy d) as Ht.
    destruct (dataUrl d) as [|c u] eqn:Eu; [discriminate Ht|].
    rewrite Hparse. reflexivity.
  - right. exists message. split; [reflexivity|].
    rewrite (or_else_some_truthy _ _ (remove_threw_truthy _ _ _ _ _ E)).
    reflexivity.
Qed.

Lemma background_removal_ends_witness :
  let up := {| App.previewUrl := lit "blob:1"; App.base64 := lit "QUJD";
               App.up_mimeType := lit "image/png" |} in
  let st := {| App.status := App.IDLE; App.uploadedImage := Some up;
               App.prompt := lit "Vintage"; App.influence := 50%Z;
               App.characterDescription := []; App.sceneAction := [];
               App.quality := standard; App.generatedImages := [];
               App.errorMessage := None |} in
  let run := removeBackground None echoService (lit "QUJD")
               (lit "image/png") in
  let ended := Handlers.handleBackgroundRemoval None echoService
                 (lit "t") st in
  (exists d b m,
     outcome run = Returned {| imageUrl := Some (dataUrl d); text := None |}
     /\ ended
        = {| Handlers.end_status := App.IDLE;
             Handlers.end_uploaded :=
               Some {| Handlers.raw_previewUrl := dataUrl d;
                       Handlers.raw_base64 := Some b;
                       Handlers.raw_mimeType := Some m |};
             Handlers.end_error := None;
             Handlers.end_sent := sent run |})
  \/ (exists message,
        outcome run = Threw message
        /\ ended
           = {| Handlers.end_status := App.ERROR;
                Handlers.end_uploaded := Some (Handlers.rawOf up);
                Handlers.end_error := Some message;
                Handlers.end_sent := sent run |}).
Proof.
  intros up st.
  exact (background_removal_ends None echoService (lit "t") st up eq_refl).
Defined.

(** X13: round trip through the handler: when the service answers with an
    image whose (defaulted) mime type has no comma, colon or semicolon and
    whose data has no comma, [handleBackgroundRemoval] stores exactly that
    data and that mime type, with the returned URL as preview; and a later
    request transmits the stored data unchanged. *)
Theorem background_removal_replaces_upload
    (apiKey : option jsstring) (service : Service)
    (typeErrorMessage : jsstring) (st : App.State) (up : App.UploadedFile)
    (response : Response) (d : InlineData) :
  App.uploadedImage st = Some up ->
  truthy_opt apiKey = true ->
  service (removeRequest (App.base64 up) (App.up_mimeType up))
  = Resolved response ->
  last_opt (imageParts (scannedParts response)) = Some d ->
  let mime := or_else (mimeType d) (lit "image/png") in
  let payload := to_string_opt (data d) in
  ~ In comma mime -> ~ In colon mime -> ~ In semicolon mime ->
  ~ In comma payload ->
  Handlers.handleBackgroundRemoval apiKey service typeErrorMessage st
  = {| Handlers.end_status := App.IDLE;
       Handlers.end_uploaded :=
         Some {| Handlers.raw_previewUrl :=
                   lit "data:" ++ mime ++ lit ";base64," ++ payload;
                 Handlers.raw_base64 := Some payload;
                 Handlers.raw_mimeType := Some mime |};
       Handlers.end_error := None;
       Handlers.end_sent :=
         [removeRequest (App.base64 up) (App.up_mimeType up)] |}
  /\ cleanBase64 payload = Some payload.
Proof.
  intros Hup Hkey Hsvc Hd mime payload Hc Hk Hs Hp.
  split; [|apply cleanBase64_plain; exact Hp].
  unfold Handlers.handleBackgroundRemoval. rewrite Hup.
  rewrite (remove_resolved _ _ _ _ _ Hkey Hsvc), Hd.
  cbn [outcome imageUrl sent].
  assert (Hurl : dataUrl d = lit "data:" ++ mime ++ lit ";base64," ++ payload)
    by reflexivity.
  pose proof (dataUrl_truthy d) as Ht.
  destruct (dataUrl d) as [|c u] eqn:Eu; [discriminate Ht|].
  rewrite Hurl, parseDataUrl_data.
  rewrite (read_back_payload mime payload Hc Hp).
  rewrite (read_back_mime mime payload Hc Hk Hs). reflexivity.
Qed.

Lemma background_removal_replaces_upload_witness :
  let up := {| App.previewUrl := lit "blob:1";
               App.base64 := lit "data:image/jpeg;base64,QUJD";
               App.up_mimeType := lit "image/jpeg" |} in
  let st := {| App.status := App.IDLE; App.uploadedImage := Some up;
               App.prompt := lit "Vintage"; App.influence := 50%Z;
               App.characterDescription := []; App.sceneAction := [];
               App.quality := standard; App.generatedImages := [];
               App.errorMessage := Some (lit "old") |} in
  Handlers.end_uploaded
    (Handlers.handleBackgroundRemoval (Some (lit "k")) echoService
       (lit "t") st)
  = Some {| Handlers.raw_previewUrl := lit "data:image/jpeg;base64,QUJD";
            Handlers.raw_base64 := Some (lit "QUJD");
            Handlers.raw_mimeType := Some (lit "image/jpeg") |}.
Proof.
  intros up st.
  refine (f_equal Handlers.end_uploaded
            (proj1 (background_removal_replaces_upload (Some (lit "k"))
                      echoService (lit "t") st up _
                      {| data := Some (lit "QUJD");
                         mimeType := Some (lit "image/jpeg") |}
                      eq_refl eq_refl eq_refl eq_refl _ _ _ _)));
    vm_compute; intuition discriminate.
Defined.

(** X14: when [generateStylizedImage] throws, [handleGenerate] leaves the
    history, the upload and the settings as they were, sets the status to
    ERROR and shows exactly the thrown message (which is never empty, so
    the handler's fallback text is not used); the requests are those of
    the call. *)
Theorem generate_failure_keeps_history
    (apiKey : option jsstring) (service : Service) (now_id now_ts : Z)
    (st : App.State) (up : App.UploadedFile) (message : jsstring) :
  App.uploadedImage st = Some up ->
  let run := generateStylizedImage apiKey service (App.base64 up)
               (App.up_mimeType up) (App.prompt st) (App.influence st)
               (App.characterDescription st) (App.sceneAction st)
               (App.quality st) in
  outcome run = Threw message ->
  App.handleGenerate apiKey service now_id now_ts st
  = (Handlers.withUpload st App.ERROR (App.uploadedImage st) (Some message),
     sent run)
  /\ App.generatedImages
       (fst (App.handleGenerate apiKey service now_id now_ts st))
     = App.generatedImages st.
Proof.
  intros Hup run Hthrew.
  pose proof (stylize_threw_truthy _ _ _ _ _ _ _ _ _ _ Hthrew) as Ht.
  assert (Hrun : App.handleGenerate apiKey service now_id now_ts st
                 = (Handlers.withUpload st App.ERROR (App.uploadedImage st)
                      (Some message), sent run)).
  { unfold App.handleGenerate. rewrite Hup. fold run. rewrite Hthrew.
    rewrite (or_else_some_truthy _ _ Ht). reflexivity. }
  split; [exact Hrun|]. rewrite Hrun. reflexivity.
Qed.

Lemma generate_failure_keeps_history_witness :
  let up := {| App.previewUrl := lit "blob:1"; App.base64 := lit "QUJD";
               App.up_mimeType := lit "image/png" |} in
  let old := App.newImageOf 1 1 (lit "data:image/png;base64,QUFB")
               (lit "Vintage") in
  let st := {| App.status := App.SUCCESS; App.uploadedImage := Some up;
               App.prompt := lit "Vintage"; App.influence := 50%Z;
               App.characterDescription := []; App.sceneAction := [];
               App.quality := standard; App.generatedImages := [old];
               App.errorMessage := None |} in
  App.handleGenerate (Some (lit "k"))
    (fun _ => Rejected (Some (lit "503 Service Unavailable"))) 2 2 st
  = (Handlers.withUpload st App.ERROR (Some up) (Some overloadedMessage),
     [stylizeRequest (lit "QUJD") (lit "image/png") (lit "Vintage") 50 [] []
        standard]).
Proof.
  intros up old st.
  exact (proj1 (generate_failure_keeps_history (Some (lit "k"))
                  (fun _ => Rejected (Some (lit "503 Service Unavailable")))
                  2%Z 2%Z st up overloadedMessage eq_refl eq_refl)).
Defined.

Lemma background_removal_status
    (apiKey : option jsstring) (service : Service)
    (typeErrorMessage : jsstring) (st : App.State) (up : App.UploadedFile) :
  App.uploadedImage st = Some up ->
  let status' :=
    Handlers.end_status
      (Handlers.handleBackgroundRemoval apiKey service typeErrorMessage st) in
  status' = App.IDLE \/ status' = App.ERROR.
Proof.
  intros Hup status'. subst status'.
  unfold Handlers.handleBackgroundRemoval. rewrite Hup.
  destruct (outcome _) as [r | message] eqn:E; [|right; reflexivity].
  destruct (remove_returned_shape _ _ _ _ _ E) as [d ->].
  cbn [imageUrl]. pose proof (dataUrl_truthy d) as Ht.
  destruct (dataUrl d) as [|c u]; [discriminate Ht|].
  destruct (Handlers.parseDataUrl (c :: u)); [right | left]; reflexivity.
Qed.

(** X15: no handler leaves the application in a processing state: from a
    state that is not processing, [handleGenerate] and [handleFileSelect]
    end in a state that is not processing, and [handleBackgroundRemoval]
    ends with a status that is IDLE, SUCCESS or ERROR.  Without an uploaded
    image [handleGenerate] and [handleBackgroundRemoval] send no request,
    and without a selected file [handleFileSelect] changes nothing. *)
Theorem handlers_never_stay_processing
    (apiKey : option jsstring) (service : Service) (now_id now_ts : Z)
    (typeErrorMessage : jsstring) (selected : option Handlers.File)
    (readResult : option jsstring) (objectUrl : jsstring) (st : App.State) :
  Handlers.isProcessing st = false ->
  Handlers.isProcessing
    (fst (App.handleGenerate apiKey service now_id now_ts st)) = false
  /\ Handlers.isProcessing
       (Handlers.handleFileSelect selected readResult objectUrl st) = false
  /\ In (Handlers.end_status
           (Handlers.handleBackgroundRemoval apiKey service typeErrorMessage
              st))
        [App.IDLE; App.SUCCESS; App.ERROR]
  /\ (App.uploadedImage st = None ->
      snd (App.handleGenerate apiKey service now_id now_ts st) = []
      /\ Handlers.end_sent
           (Handlers.handleBackgroundRemoval apiKey service typeErrorMessage
              st) = [])
  /\ Handlers.handleFileSelect None readResult objectUrl st = st.
Proof.
  intros Hidle.
  assert (Hstatus : In (App.status st) [App.IDLE; App.SUCCESS; App.ERROR]).
  { unfold Handlers.isProcessing in Hidle.
    destruct (App.status st); cbn [In]; try discriminate Hidle; tauto. }
  split; [|split; [|split; [|split]]].
  - unfold App.handleGenerate.
    destruct (App.uploadedImage st) as [up|]; [|exact Hidle].
    destruct (outcome _) as [r | message] eqn:E; [|reflexivity].
    destruct (returned_has_image _ _ _ _ _ _ _ _ _ _ E) as (c & u & ->).
    reflexivity.
  - unfold Handlers.handleFileSelect.
    destruct selected as [file|]; [|exact Hidle].
    destruct (negb (starts_with (lit "image/") (Handlers.file_type file)));
      [exact Hidle|].
    destruct (5 * 1024 * 1024 <? Handlers.file_size file)%Z; [exact Hidle|].
    destruct readResult; reflexivity.
  - destruct (App.uploadedImage st) as [up|] eqn:Hup.
    + destruct (background_removal_status apiKey service typeErrorMessage
                  st up Hup) as [-> | ->]; cbn [In]; tauto.
    + unfold Handlers.handleBackgroundRemoval. rewrite Hup. exact Hstatus.
  - intros Hup. unfold App.handleGenerate, Handlers.handleBackgroundRemoval.
    rewrite Hup. split; reflexivity.
  - reflexivity.
Qed.

Lemma handlers_never_stay_processing_witness :
  let up := {| App.previewUrl := lit "blob:1"; App.base64 := lit "QUJD";
               App.up_mimeType := lit "image/png" |} in
  let st := {| App.status := App.ERROR; App.uploadedImage := Some up;
               App.prompt := lit "Vintage"; App.influence := 50%Z;
               App.characterDescription := []; App.sceneAction := [];
               App.quality := standard; App.generatedImages := [];
               App.errorMessage := Some (lit "old") |} in
  Handlers.isProcessing
    (fst (App.handleGenerate (Some (lit "k")) echoService 1 1 st)) = false.
Proof.
  intros up st.
  exact (proj1 (handlers_never_stay_processing (Some (lit "k")) echoService
                  1%Z 1%Z (lit "t") None None [] st eq_refl)).
Defined.

(** X16: [handleFileSelect] accepts a file exactly when its type starts
    with "image/" and its size is at most 5242880 bytes (a file of exactly
    5 MB is accepted).  The type is checked first.  A refused file changes
    nothing but the error message; an accepted file whose reading succeeds
    replaces the upload (preview URL, the text read, the file's type), with
    status IDLE and no error; when the reading fails the upload is kept and
    the status is ERROR.  The history is never touched. *)
Theorem file_select_acceptance
    (file : Handlers.File) (readResult : option jsstring)
    (objectUrl : jsstring) (st : App.State) :
  let st' := Handlers.handleFileSelect (Some file) readResult objectUrl st in
  let isImage := starts_with (lit "image/") (Handlers.file_type file) in
  (isImage = false ->
   st' = Handlers.withUpload st (App.status st) (App.uploadedImage st)
           (Some (lit "Please upload a valid image file (JPG or PNG).")))
  /\ (isImage = true -> (5242880 < Handlers.file_size file)%Z ->
      st' = Handlers.withUpload st (App.status st) (App.uploadedImage st)
              (Some (lit "File size should be less than 5MB.")))
  /\ (isImage = true -> (Handlers.file_size file <= 5242880)%Z ->
      (forall read, readResult = Some read ->
         st' = Handlers.withUpload st App.IDLE
                 (Some {| App.previewUrl := objectUrl;
                          App.base64 := read;
                          App.up_mimeType := Handlers.file_type file |})
                 None)
      /\ (readResult = None ->
          st' = Handlers.withUpload st App.ERROR (App.uploadedImage st)
                  (Some (lit "Failed to process image. Please try again."))))
  /\ App.generatedImages st' = App.generatedImages st.
Proof.
  intros st' isImage. subst st' isImage.
  unfold Handlers.handleFileSelect.
  destruct (starts_with (lit "image/") (Handlers.file_type file)) eqn:Et;
    cbn [negb].
  - destruct (Z.ltb_spec (5 * 1024 * 1024) (Handlers.file_size file))
      as [Hbig | Hsmall].
    + split; [intros H; discriminate H|].
      split; [reflexivity|]. split; [intros _ Hle; lia | reflexivity].
    + split; [intros H; discriminate H|].
      split; [intros _ Hgt; lia|].
      split; [|destruct readResult; reflexivity].
      intros _ _. split.
      * intros read ->. reflexivity.
      * intros ->. reflexivity.
  - split; [reflexivity|].
    split; [intros H; discriminate H|].
    split; [intros H; discriminate H | reflexivity].
Qed.

Lemma file_select_acceptance_witness :
  let file := {| Handlers.file_type := lit "image/gif";
                 Handlers.file_size := 5242880%Z |} in
  let st := {| App.status := App.IDLE; App.uploadedImage := None;
               App.prompt := lit "Vintage"; App.influence := 50%Z;
               App.characterDescription := []; App.sceneAction := [];
               App.quality := standard; App.generatedImages := [];
               App.errorMessage := Some (lit "old") |} in
  Handlers.handleFileSelect (Some file)
    (Some (lit "data:image/gif;base64,QUJD")) (lit "blob:1") st
  = Handlers.withUpload st App.IDLE
      (Some {| App.previewUrl := lit "blob:1";
               App.base64 := lit "data:image/gif;base64,QUJD";
               App.up_mimeType := lit "image/gif" |})
      None.
Proof.
  intros file st.
  exact (proj1 (proj1 (proj2 (proj2
           (file_select_acceptance file
              (Some (lit "data:image/gif;base64,QUJD")) (lit "blob:1") st)))
           eq_refl ltac:(cbn; lia))
           (lit "data:image/gif;base64,QUJD") eq_refl).
Defined.

Lemma handleGenerate_sent
    (apiKey : option jsstring) (service : Service) (now_id now_ts : Z)
    (st : App.State) (up : App.UploadedFile) :
  App.uploadedImage st = Some up ->
  snd (App.handleGenerate apiKey service now_id now_ts st)
  = sent (generateStylizedImage apiKey service (App.base64 up)
            (App.up_mimeType up) (App.prompt st) (App.influence st)
            (App.characterDescription st) (App.sceneAction st)
            (App.quality st)).
Proof.
  intros Hup. unfold App.handleGenerate. rewrite Hup.
  destruct (outcome _) as [r | message]; [|reflexivity].
  destruct (imageUrl r) as [[|c u]|]; reflexivity.
Qed.

Lemma stylize_sent_one (apiKey : option jsstring) (service : Service)
    (base64Data mimeType prompt : jsstring) (influence : Z)
    (characterDescription sceneActionDescription : jsstring)
    (quality : Quality) :
  truthy_opt apiKey = true ->
  sent (generateStylizedImage apiKey service base64Data mimeType prompt
          influence characterDescription sceneActionDescription quality)
  = [stylizeRequest base64Data mimeType prompt influence
       characterDescription sceneActionDescription quality].
Proof.
  intros Hkey.
  destruct (service (stylizeRequest base64Data mimeType prompt influence
                       characterDescription sceneActionDescription quality))
    as [response | message] eqn:E.
  - rewrite (stylize_resolved _ _ _ _ _ _ _ _ _ _ Hkey E). reflexivity.
  - rewrite (stylize_rejected _ _ _ _ _ _ _ _ _ _ Hkey E). reflexivity.
Qed.

(** X17: upload, then generate.  A file that is accepted and read as a
    data URL (a comma-free header, "base64,", a base64 payload) is stored
    with the whole data URL as its base64 text; the next [handleGenerate]
    sends one request, whose image data is the bare payload, whose mime
    type is the file's type and whose instruction is built from the
    settings of the state. *)
Theorem upload_then_generate
    (apiKey : option jsstring) (service : Service) (now_id now_ts : Z)
    (file : Handlers.File) (header payload objectUrl : jsstring)
    (st : App.State) :
  truthy_opt apiKey = true ->
  starts_with (lit "image/") (Handlers.file_type file) = true ->
  (Handlers.file_size file <= 5242880)%Z ->
  ~ In comma header ->
  forallb base64_alphabet payload = true ->
  let uploaded :=
    Handlers.handleFileSelect (Some file)
      (Some (header ++ lit "base64," ++ payload)) objectUrl st in
  App.uploadedImage uploaded
  = Some {| App.previewUrl := objectUrl;
            App.base64 := header ++ lit "base64," ++ payload;
            App.up_mimeType := Handlers.file_type file |}
  /\ exists request,
       snd (App.handleGenerate apiKey service now_id now_ts uploaded)
       = [request]
       /\ req_data request = Some payload
       /\ req_mimeType request = Handlers.file_type file
       /\ req_text request
          = finalPrompt (App.prompt st) (App.influence st)
              (App.characterDescription st) (App.sceneAction st).
Proof.
  intros Hkey Htype Hsize Hheader Hpayload uploaded.
  assert (Hup : uploaded
    = Handlers.withUpload st App.IDLE
        (Some {| App.previewUrl := objectUrl;
                 App.base64 := header ++ lit "base64," ++ payload;
                 App.up_mimeType := Handlers.file_type file |})
        None).
  { subst uploaded. unfold Handlers.handleFileSelect.
    rewrite Htype. cbn [negb].
    destruct (Z.ltb_spec (5 * 1024 * 1024) (Handlers.file_size file));
      [lia | reflexivity]. }
  rewrite Hup. split; [reflexivity|].
  eexists. split.
  - rewrite (handleGenerate_sent apiKey service now_id now_ts
               (Handlers.withUpload st App.IDLE
                  (Some {| App.previewUrl := objectUrl;
                           App.base64 := header ++ lit "base64," ++ payload;
                           App.up_mimeType := Handlers.file_type file |})
                  None)
               {| App.previewUrl := objectUrl;
                  App.base64 := header ++ lit "base64," ++ payload;
                  App.up_mimeType := Handlers.file_type file |}
               eq_refl).
    apply stylize_sent_one. exact Hkey.
  - cbn [stylizeRequest req_data req_mimeType req_text App.base64
           App.up_mimeType Handlers.withUpload App.prompt App.influence
           App.characterDescription App.sceneAction].
    split; [|split; reflexivity].
    apply cleanBase64_header; [exact Hheader|].
    apply base64_no_comma. exact Hpayload.
Qed.

Lemma upload_then_generate_witness :
  let file := {| Handlers.file_type := lit "image/png";
                 Handlers.file_size := 1024%Z |} in
  let st := {| App.status := App.IDLE; App.uploadedImage := None;
               App.prompt := lit "Vintage"; App.influence := 50%Z;
               App.characterDescription := []; App.sceneAction := [];
               App.quality := standard; App.generatedImages := [];
               App.errorMessage := None |} in
  exists request,
    snd (App.handleGenerate (Some (lit "k")) echoService 1 1
           (Handlers.handleFileSelect (Some file)
              (Some (lit "data:image/png;" ++ lit "base64," ++ lit "QUJD"))
              (lit "blob:1") st))
    = [request]
    /\ req_data request = Some (lit "QUJD")
    /\ req_mimeType request = lit "image/png"
    /\ req_text request = finalPrompt (lit "Vintage") 50 [] [].
Proof.
  intros file st.
  refine (proj2 (upload_then_generate (Some (lit "k")) echoService 1%Z 1%Z
                   file (lit "data:image/png;") (lit "QUJD") (lit "blob:1")
                   st eq_refl eq_refl _ _ eq_refl)).
  - cbn. lia.
  - vm_compute. intuition discriminate.
Defined.

(** ** The two entry points on the same response *)

(** X18: given the same response and a configured key, the two entry
    points agree on the image: [removeBackground] returns exactly when
    [generateStylizedImage] returns, and with the same image URL; only the
    accompanying text differs, which [removeBackground] never reports. *)
Theorem entry_points_choose_same_image
    (apiKey : option jsstring) (response : Response)
    (base64Data mimeType prompt : jsstring) (influence : Z)
    (characterDescription sceneActionDescription : jsstring)
    (quality : Quality) :
  truthy_opt apiKey = true ->
  let stylized :=
    outcome (generateStylizedImage apiKey (fun _ => Resolved response)
               base64Data mimeType prompt influence characterDescription
               sceneActionDescription quality) in
  let removed :=
    outcome (removeBackground apiKey (fun _ => Resolved response)
               base64Data mimeType) in
  (forall r, stylized = Returned r ->
     removed = Returned {| imageUrl := imageUrl r; text := None |})
  /\ (forall r, removed = Returned r ->
        exists t, stylized = Returned {| imageUrl := imageUrl r; text := t |})
  /\ (forall message, stylized = Threw message ->
        removed = Threw (removalWrapPrefix ++ removalFailedMessage)).
Proof.
  intros Hkey stylized removed. subst stylized removed.
  rewrite (stylize_resolved apiKey (fun _ => Resolved response) base64Data
             mimeType prompt influence characterDescription
             sceneActionDescription quality response Hkey eq_refl).
  rewrite (remove_resolved apiKey (fun _ => Resolved response) base64Data
             mimeType response Hkey eq_refl).
  cbn [outcome]. unfold scanResponse. rewrite conclude_scan.
  destruct (last_opt (imageParts (scannedParts response))) as [d|].
  - split; [|split].
    + intros r H. injection H as <-. reflexivity.
    + intros r H. injection H as <-. eexists. reflexivity.
    + intros message H. discriminate H.
  - split; [|split].
    + intros r H.
      destruct (last_opt (textParts (scannedParts response)));
        discriminate H.
    + intros r H. discriminate H.
    + intros message _. reflexivity.
Qed.

Lemma entry_points_choose_same_image_witness :
  let d := {| data := Some (lit "QUJD"); mimeType := Some (lit "image/png") |} in
  let response :=
    responseOf [[ {| inlineData := None; part_text := Some (lit "Done.") |};
                  {| inlineData := Some d; part_text := None |} ]] in
  outcome (removeBackground (Some (lit "k")) (fun _ => Resolved response)
             (lit "QUJD") (lit "image/png"))
  = Returned {| imageUrl := Some (lit "data:image/png;base64,QUJD");
                text := None |}.
Proof.
  intros d response.
  exact (proj1 (entry_points_choose_same_image (Some (lit "k")) response
                  (lit "QUJD") (lit "image/png") (lit "Vintage") 50%Z [] []
                  standard eq_refl)
           {| imageUrl := Some (lit "data:image/png;base64,QUJD");
              text := Some (lit "Done.") |}
           eq_refl).
Defined.
